(** * Resume RAG analyzer: the text pipeline of [rag_core.py] and [app.py]

    A shallow embedding of the analyzer's text normalizer, score and
    suggestion extraction, section extraction and of the control flow of the
    analysis pipeline around its third-party services.

    Python [str] values are sequences of Unicode code points; they are
    modelled as lists of code points.  The character classes of the [re]
    module and of the [str] methods are written out for the ASCII range; what
    the Unicode database says about the other code points is a parameter of
    the development ([unicode_db]), so every statement holds for every
    version of that database. *)

From Stdlib Require Import NArith ZArith List Lia Bool String Ascii DecimalString.
From stdpp Require Import base option list gmap.

Local Open Scope N_scope.

(** ** Python strings *)

Definition char := N.
Definition str := list char.

(** A string literal of the source, as code points (ASCII literals only). *)
Definition py (s : string) : str :=
  List.map N_of_ascii (list_ascii_of_string s).

Definition NL : char := 10.
Definition TAB : char := 9.
Definition SPACE : char := 32.
Definition QUOTE : char := 34.
Definition PERCENT : char := 37.
Definition CLOSE_PAREN : char := 41.
Definition DASH : char := 45.
Definition DOT : char := 46.
Definition COLON : char := 58.
Definition UNDERSCORE : char := 95.
(** U+2022, the bullet of the source's literals. *)
Definition BULLET : char := 8226.

(** [Py_UNICODE_ISSPACE]: the predicate behind [str.strip], [str.isspace]
    and the [\s] class of a [str] pattern. *)
Definition isspace (c : char) : bool :=
  ((9 <=? c) && (c <=? 13)) || ((28 <=? c) && (c <=? 32))
  || (c =? 133) || (c =? 160) || (c =? 5760)
  || ((8192 <=? c) && (c <=? 8202))
  || (c =? 8232) || (c =? 8233) || (c =? 8239) || (c =? 8287) || (c =? 12288).

Fixpoint lstrip (s : str) : str :=
  match s with
  | [] => []
  | c :: r => if isspace c then lstrip r else s
  end.

Fixpoint rstrip (s : str) : str :=
  match s with
  | [] => []
  | c :: r =>
      match rstrip r with
      | [] => if isspace c then [] else [c]
      | r' => c :: r'
      end
  end.

(** [s.strip()] *)
Definition strip (s : str) : str := rstrip (lstrip s).

(** [prefix] starts [s]. *)
Fixpoint startswith (s prefix : str) {struct prefix} : bool :=
  match prefix, s with
  | [], _ => true
  | p :: prefix', c :: s' => (c =? p) && startswith s' prefix'
  | _ :: _, [] => false
  end.

(** [needle in hay] *)
Fixpoint contains (needle hay : str) : bool :=
  startswith hay needle ||
  match hay with
  | [] => false
  | _ :: hay' => contains needle hay'
  end.

(** [c in s] for a single character. *)
Definition has_char (c : char) (s : str) : bool :=
  existsb (N.eqb c) s.

(** [s.split(sep)] for a one-character separator: never an empty list. *)
Fixpoint split (sep : char) (s : str) : list str :=
  match s with
  | [] => [[]]
  | c :: r =>
      if c =? sep then [] :: split sep r
      else match split sep r with
           | [] => [[c]]
           | l :: ls => (c :: l) :: ls
           end
  end.

(** [sep.join(parts)] for a one-character separator. *)
Fixpoint join (sep : char) (parts : list str) : str :=
  match parts with
  | [] => []
  | [l] => l
  | l :: ls => l ++ sep :: join sep ls
  end.

(** [line.startswith((' ', '-', BULLET, '\t'))] *)
Definition starts_indented (line : str) : bool :=
  match line with
  | [] => false
  | c :: _ => (c =? SPACE) || (c =? DASH) || (c =? BULLET) || (c =? TAB)
  end.

(** ** The Unicode database

    What the interpreter's Unicode tables say about the code points above
    the ASCII range, the bullet apart (it is punctuation: no digit, no
    letter, not cased).  [uni_lower_full] receives the text before and after
    the character, since [str.lower] looks at the context of a capital
    sigma. *)

Record unicode_db := {
  uni_decimal : char -> option N;
  uni_alnum : char -> bool;
  uni_tolower : char -> char;
  uni_lower_full : str -> char -> str -> str
}.

(** A database in which no code point above the ASCII range is a digit, a
    letter or cased; texts in ASCII do not consult it. *)
Definition ascii_only : unicode_db := {|
  uni_decimal := fun _ => None;
  uni_alnum := fun _ => false;
  uni_tolower := fun c => c;
  uni_lower_full := fun _ c _ => [c]
|}.

Definition is_ascii (c : char) : bool := c <? 128.

Definition ascii_upper (c : char) : bool := (65 <=? c) && (c <=? 90).
Definition ascii_lower_letter (c : char) : bool := (97 <=? c) && (c <=? 122).
Definition ascii_digit (c : char) : bool := (48 <=? c) && (c <=? 57).

Section Unicode.

Variable U : unicode_db.

(** [Py_UNICODE_TODECIMAL]: the value of a decimal digit, the class [\d]. *)
Definition decimal (c : char) : option N :=
  if is_ascii c then (if ascii_digit c then Some (c - 48) else None)
  else if c =? BULLET then None
  else uni_decimal U c.

Definition isdecimal (c : char) : bool :=
  match decimal c with Some _ => true | None => false end.

(** The class [\w] of a [str] pattern: alphanumeric or underscore. *)
Definition isword (c : char) : bool :=
  if is_ascii c
  then ascii_upper c || ascii_lower_letter c || ascii_digit c || (c =? UNDERSCORE)
  else if c =? BULLET then false
  else uni_alnum U c.

(** [Py_UNICODE_TOLOWER], the folding of a pattern compiled with
    [re.IGNORECASE]. *)
Definition tolower (c : char) : char :=
  if is_ascii c then (if ascii_upper c then c + 32 else c)
  else if c =? BULLET then c
  else uni_tolower U c.

Fixpoint lower_from (before s : str) : str :=
  match s with
  | [] => []
  | c :: r =>
      (if is_ascii c || (c =? BULLET) then [tolower c]
       else uni_lower_full U before c r)
      ++ lower_from (before ++ [c]) r
  end.

(** [s.lower()] *)
Definition lower (s : str) : str := lower_from [] s.

(** [int(s)] on a string of decimal digits. *)
Definition int_of_digits (s : str) : Z :=
  fold_left (fun acc c => (10 * acc + Z.of_N (default 0%N (decimal c)))%Z) s 0%Z.

(** ** Text normalizer: [clean_text] *)

(** [re.sub(p+, ' ', s)] for a character class [p]: every maximal run of
    characters of the class becomes one space.  [in_run] says that the
    previous character belonged to the class. *)
Fixpoint sub_runs_from (p : char -> bool) (in_run : bool) (s : str) : str :=
  match s with
  | [] => []
  | c :: r =>
      if p c
      then (if in_run then sub_runs_from p true r
            else SPACE :: sub_runs_from p true r)
      else c :: sub_runs_from p false r
  end.

Definition sub_runs (p : char -> bool) (s : str) : str :=
  sub_runs_from p false s.

(** The characters the class [[^\w\s.,!?;:()-]] does not match. *)
Definition kept_char (c : char) : bool :=
  isword c || isspace c || has_char c (py ".,!?;:()-").

Definition is_blank (c : char) : bool := c =? SPACE.

Definition clean_text (text : str) : str :=
  match text with
  | [] => []
  | _ =>
      let text := sub_runs isspace text in
      let text := List.filter kept_char text in
      let text := sub_runs is_blank text in
      strip text
  end.

(** ** Result parser: score extraction, [calculate_match_score] *)

(** The group [(\d{1,3})] taking exactly [k] digits, followed by what
    [follow] accepts. *)
Definition digits_then (k : nat) (follow : str -> bool) (s : str) : option str :=
  let d := take k s in
  if (length d =? k)%nat && forallb isdecimal d && follow (drop k s)
  then Some d else None.

(** [(\d{1,3})] is greedy: three digits are tried first, then two, then
    one.  The result is the text of group 1 of a match starting at the head
    of [s]. *)
Definition match_digits_1_3 (follow : str -> bool) (s : str) : option str :=
  match digits_then 3 follow s with
  | Some d => Some d
  | None =>
      match digits_then 2 follow s with
      | Some d => Some d
      | None => digits_then 1 follow s
      end
  end.

(** [re.search]: the match at the leftmost position that has one. *)
Fixpoint re_search (m : str -> option str) (s : str) : option str :=
  match m s with
  | Some g => Some g
  | None =>
      match s with
      | [] => None
      | _ :: r => re_search m r
      end
  end.

(** A literal pattern character under [re.IGNORECASE]: a cased literal
    matches the characters with its lower case, any other literal matches
    itself only.  (None of the letters of [out of] has one of the extra
    equivalents [re] knows for [i], [s] and a few letters above ASCII.) *)
Definition literal_matches_ignorecase (lit c : char) : bool :=
  if ascii_upper lit || ascii_lower_letter lit
  then tolower c =? tolower lit
  else c =? lit.

Fixpoint startswith_ignorecase (s pattern : str) {struct pattern} : bool :=
  match pattern, s with
  | [], _ => true
  | p :: pattern', c :: s' =>
      literal_matches_ignorecase p c && startswith_ignorecase s' pattern'
  | _ :: _, [] => false
  end.

(** [r'(\d{1,3})%'] *)
Definition percent_pattern : str -> option str :=
  match_digits_1_3 (fun rest => startswith rest [PERCENT]).

(** [r'(\d{1,3}) out of 100'] with [re.IGNORECASE] *)
Definition out_of_100_pattern : str -> option str :=
  match_digits_1_3 (fun rest => startswith_ignorecase rest (py " out of 100")).

(** [max(0, min(100, score))] *)
Definition clamp_score (score : Z) : Z := Z.max 0 (Z.min 100 score).

Definition calculate_match_score (analysis : str) : Z :=
  match analysis with
  | [] => 0%Z
  | _ =>
      match re_search percent_pattern analysis with
      | Some g => clamp_score (int_of_digits g)
      | None =>
          match re_search out_of_100_pattern analysis with
          | Some g => clamp_score (int_of_digits g)
          | None => 75%Z
          end
      end
  end.

(** ** Result parser: top-level section starts *)

Definition nonempty (s : str) : bool :=
  match s with [] => false | _ :: _ => true end.

(** [line.strip() and ':' in line and not line.startswith((' ', '-', BULLET, '\t'))],
    the test both extraction loops leave their section on. *)
Definition starts_new_section (line : str) : bool :=
  nonempty (strip line) && has_char COLON line && negb (starts_indented line).

(** ** Result parser: suggestion extraction, [get_improvement_suggestions] *)

Definition is_suggestions_header (line : str) : bool :=
  let line_lower := lower line in
  contains (py "recommendations:") line_lower
  || contains (py "suggestions:") line_lower.

Fixpoint drop_while (p : char -> bool) (s : str) : str :=
  match s with
  | [] => []
  | c :: r => if p c then drop_while p r else s
  end.

(** The class [[-BULLET\d.\s]]. *)
Definition bullet_prefix_char (c : char) : bool :=
  (c =? DASH) || (c =? BULLET) || isdecimal c || (c =? DOT) || isspace c.

(** [re.sub(r'^[-BULLET\d.\s]+', '', s)]: the anchored pattern matches at
    the start only, and takes the longest run. *)
Definition strip_bullet_prefix (s : str) : str :=
  drop_while bullet_prefix_char s.

Definition is_dot_or_paren (c : char) : bool :=
  (c =? DOT) || (c =? CLOSE_PAREN).

(** What follows a match of [r'^\d+[\.\)]'] at the start of [s], if there is
    one: [\d+] takes every leading digit (giving one back leaves a digit
    where the class [[\.\)]] is expected). *)
Definition after_number (s : str) : option str :=
  match s with
  | [] => None
  | c :: _ =>
      if isdecimal c
      then match drop_while isdecimal s with
           | d :: r => if is_dot_or_paren d then Some r else None
           | [] => None
           end
      else None
  end.

(** [re.match(r'^\d+[\.\)]', s)] as a truth value. *)
Definition is_numbered (s : str) : bool :=
  match after_number s with Some _ => true | None => false end.

(** [re.sub(r'^\d+[\.\)]\s*', '', s)] *)
Definition strip_number_prefix (s : str) : str :=
  match after_number s with
  | Some r => drop_while isspace r
  | None => s
  end.

(** [if clean_suggestion and len(clean_suggestion) > 10: suggestions.append(...)] *)
Definition append_if_long (suggestions : list str) (clean_suggestion : str) : list str :=
  if nonempty clean_suggestion && (10 <? length clean_suggestion)%nat
  then suggestions ++ [clean_suggestion]
  else suggestions.

(** The body of the loop for a line inside the suggestions section that
    does not end it. *)
Definition collect_suggestion (suggestions : list str) (line : str) : list str :=
  let stripped := strip line in
  if nonempty stripped
     && (startswith stripped [DASH] || startswith stripped [BULLET])
  then append_if_long suggestions (strip (strip_bullet_prefix stripped))
  else if nonempty stripped && is_numbered stripped
  then append_if_long suggestions (strip (strip_number_prefix stripped))
  else suggestions.

(** The [for] loop of [get_improvement_suggestions]; returning
    [suggestions] before the end of the lines is its [break]. *)
Fixpoint scan_suggestions (in_suggestions_section : bool)
    (suggestions : list str) (lines : list str) : list str :=
  match lines with
  | [] => suggestions
  | line :: rest =>
      if is_suggestions_header line
      then scan_suggestions true suggestions rest
      else if in_suggestions_section
      then (if starts_new_section line
            then suggestions
            else scan_suggestions true (collect_suggestion suggestions line) rest)
      else scan_suggestions false suggestions rest
  end.

Definition no_analysis_message : list str :=
  [py "No analysis available to extract suggestions"].

Definition generic_suggestions : list str :=
  [ py "Add specific metrics to quantify your achievements";
    py "Tailor your skills section to match job requirements";
    py "Highlight relevant certifications and courses";
    py "Include more details about team collaboration" ].

Definition get_improvement_suggestions (analysis : str) : list str :=
  match analysis with
  | [] => no_analysis_message
  | _ =>
      match scan_suggestions false [] (split NL analysis) with
      | [] => generic_suggestions
      | suggestions => suggestions
      end
  end.

(** ** Section extraction: [extract_section] of [app.py] *)

(** [section_name.lower() in line.lower() and ':' in line] *)
Definition names_section (section_name line : str) : bool :=
  contains (lower section_name) (lower line) && has_char COLON line.

(** The [for] loop of [extract_section]. *)
Fixpoint collect_section (section_name : str) (in_section : bool)
    (section_lines : list str) (lines : list str) : list str :=
  match lines with
  | [] => section_lines
  | line :: rest =>
      if names_section section_name line
      then collect_section section_name true section_lines rest
      else if in_section
      then (if starts_new_section line
            then section_lines
            else collect_section section_name true
                   (if nonempty (strip line) then section_lines ++ [line]
                    else section_lines) rest)
      else collect_section section_name false section_lines rest
  end.

Definition extract_section (text section_name : str) : str :=
  match text with
  | [] => py "No content available for " ++ section_name
  | _ =>
      let section_lines := collect_section section_name false [] (split NL text) in
      match strip (join NL section_lines) with
      | [] => py "No specific content found for " ++ section_name
      | result => result
      end
  end.

End Unicode.

(** ** The analysis pipeline and its services

    The splitter, the vector store, the embedding model behind it and the
    generative model are third-party components.  The pipeline is embedded
    over an interface of them; what they answer is left open, they may fail
    on any call. *)

Record Document := {
  page_content : str;
  metadata : list (str * str)
}.

(** Exceptions: the [ValueError]s the [raise] statements of the source
    construct, and whatever comes out of a call into a third-party
    component, with its text. *)
Inductive exn :=
| ValueError (msg : str)
| ServiceError (msg : str).

(** How a call into a third-party component ends. *)
Inductive outcome (A : Type) :=
| Returned (a : A)
| Raised (msg : str).
Arguments Returned {A} a.
Arguments Raised {A} msg.

(** [str(e)] *)
Definition exn_text (e : exn) : str :=
  match e with
  | ValueError msg => msg
  | ServiceError msg => msg
  end.

(** The persisted vector store under [./chroma_db]: the chunks each
    collection name was given. *)
Abbreviation store := (gmap str (list Document)).

Record services := {
  (** [RecursiveCharacterTextSplitter(chunk_size=1000, chunk_overlap=200,
      length_function=len).split_documents([doc])] *)
  split_documents : Document -> list Document;
  (** [Chroma.from_documents(documents, embedding, persist_directory,
      collection_name)] followed by [persist()]: how it ends (a failure of
      the embedding service or of the persistence raises), and the store
      afterwards. *)
  Chroma_from_documents : list Document -> str -> store -> outcome unit * store;
  (** The constructor [Chroma(persist_directory, embedding_function,
      collection_name)]: how it ends, and the store afterwards. *)
  Chroma_open : store -> str -> outcome unit * store;
  (** [vectordb.similarity_search(query, k)] *)
  similarity_search : store -> str -> str -> nat -> outcome (list Document);
  (** [(prompt | llm | StrOutputParser()).invoke({context, resume})] for the
      prompt template of [generate_analysis]. *)
  chain_invoke : str -> str -> outcome str
}.

(** What a call can change: the store, the standard output, and the calls
    made to the generative model, as (context, resume) pairs. *)
Record world := {
  chroma_db : store;
  stdout : list str;
  llm_calls : list (str * str)
}.

(** Computations that change the world and either return or raise. *)
Definition M (A : Type) : Type := world -> (exn + A) * world.

Definition ret {A} (a : A) : M A := fun w => (inr a, w).

Definition raise {A} (e : exn) : M A := fun w => (inl e, w).

Definition bind {A B} (m : M A) (k : A -> M B) : M B :=
  fun w =>
    match m w with
    | (inl e, w') => (inl e, w')
    | (inr a, w') => k a w'
    end.

(** [try: m  except: h] *)
Definition try_except {A} (m : M A) (h : exn -> M A) : M A :=
  fun w =>
    match m w with
    | (inl e, w') => h e w'
    | (inr a, w') => (inr a, w')
    end.

Declare Scope pipeline_scope.
Delimit Scope pipeline_scope with pipeline.
Notation "'do' x <- m ; k" := (bind m (fun x => k))
  (at level 10, x name, m at level 100, k at level 200) : pipeline_scope.
Notation "'run' m ; k" := (bind m (fun _ => k))
  (at level 10, m at level 100, k at level 200) : pipeline_scope.

Definition result_of {A} (o : outcome A) : exn + A :=
  match o with
  | Returned a => inr a
  | Raised msg => inl (ServiceError msg)
  end.

(** [print(text)] *)
Definition print (text : str) : M unit :=
  fun w => (inr tt, {| chroma_db := chroma_db w;
                       stdout := stdout w ++ [text];
                       llm_calls := llm_calls w |}).

(** [str(n)] for a length. *)
Definition str_of_nat (n : nat) : str :=
  py (NilZero.string_of_uint (Nat.to_uint n)).

Record AnalysisResult := {
  score : Z;
  analysis : str;
  relevant_chunks : list str
}.

Definition default_collection : str := py "job_descriptions".

(** The text of [_generate_fallback_analysis], line by line. *)
Definition fallback_analysis_lines : list str :=
  [ [];
    py "1. OVERALL MATCH: 78%";
    [];
    py "2. STRENGTHS (Present in Resume):";
    py "- Strong programming skills in Python and JavaScript";
    py "- Experience with web frameworks and cloud technologies";
    py "- Demonstrated problem-solving abilities in previous roles";
    py "- Good educational background in Computer Science";
    [];
    py "3. GAPS & AREAS FOR IMPROVEMENT (Missing or Weak in Resume):";
    py "- Could benefit from more specific metrics to quantify achievements";
    py "- Limited experience with advanced machine learning frameworks";
    py "- Consider adding more leadership and collaboration examples";
    [];
    py "4. RECOMMENDATIONS:";
    py "- Add specific metrics to quantify your impact (e.g., " ++ [QUOTE]
      ++ py "improved performance by 40%" ++ [QUOTE] ++ py ")";
    py "- Highlight any relevant certifications or courses";
    py "- Include more details about team collaboration and leadership";
    py "- Tailor your skills section to match the job requirements more closely";
    [];
    py "Note: This is a sample analysis. For real-time AI analysis, please check your API configuration.";
    [] ].

Definition _generate_fallback_analysis (resume_text : str)
    (relevant_chunks : list Document) : str :=
  join NL fallback_analysis_lines.

Section Pipeline.

Variable U : unicode_db.
Variable svc : services.

Local Open Scope pipeline_scope.

Definition with_store (w : world) (db : store) : world :=
  {| chroma_db := db; stdout := stdout w; llm_calls := llm_calls w |}.

(** [Chroma.from_documents(...)] and [vectordb.persist()]; the result
    stands for the [vectordb] object, the collection's name. *)
Definition store_chunks (chunks : list Document) (collection_name : str) : M str :=
  fun w =>
    match Chroma_from_documents svc chunks collection_name (chroma_db w) with
    | (Raised msg, db) => (inl (ServiceError msg), with_store w db)
    | (Returned _, db) => (inr collection_name, with_store w db)
    end.

(** [Chroma(...)] *)
Definition open_collection (collection_name : str) : M str :=
  fun w =>
    match Chroma_open svc (chroma_db w) collection_name with
    | (Raised msg, db) => (inl (ServiceError msg), with_store w db)
    | (Returned _, db) => (inr collection_name, with_store w db)
    end.

(** [vectordb.similarity_search(query, k=k)] *)
Definition search_collection (vectordb query : str) (k : nat) : M (list Document) :=
  fun w => (result_of (similarity_search svc (chroma_db w) vectordb query k), w).

Definition process_job_description (job_desc_text collection_name : str) : M str :=
  if negb (nonempty (strip job_desc_text))
  then raise (ValueError (py "Job description text cannot be empty"))
  else
    let cleaned_text := clean_text U job_desc_text in
    let doc := {| page_content := cleaned_text;
                  metadata := [(py "source", py "job_description");
                               (py "type", py "requirements")] |} in
    let chunks := split_documents svc doc in
    do vectordb <- store_chunks chunks collection_name;
    ret (py "Processed and stored " ++ str_of_nat (length chunks)
         ++ py " chunks from job description.").

(** Only the constructor stands inside the [try]; its [except] clause
    returns the empty list ([opened] is [None] then). *)
Definition query_job_description (resume_text collection_name : str) (k : nat)
    : M (list Document) :=
  if negb (nonempty (strip resume_text))
  then raise (ValueError (py "Resume text cannot be empty"))
  else
    let cleaned_resume := clean_text U resume_text in
    do opened <- try_except
                   (do vectordb <- open_collection collection_name;
                    ret (Some vectordb))
                   (fun _ => ret None);
    match opened with
    | None => ret []
    | Some vectordb => search_collection vectordb cleaned_resume k
    end.

(** The call of the generative model, recorded in [llm_calls]. *)
Definition invoke_chain (context_text resume_text : str) : M str :=
  fun w =>
    (result_of (chain_invoke svc context_text resume_text),
     {| chroma_db := chroma_db w; stdout := stdout w;
        llm_calls := llm_calls w ++ [(context_text, resume_text)] |}).

Definition generate_analysis (resume_text : str) (relevant_chunks : list Document)
    : M str :=
  try_except
    (let context_text := join NL (List.map page_content relevant_chunks) in
     invoke_chain context_text resume_text)
    (fun e =>
       run print (py "Google API Error: " ++ exn_text e);
       ret (_generate_fallback_analysis resume_text relevant_chunks)).

Definition no_relevant_message : str :=
  py "No relevant job description requirements found. Please check your inputs.".

Definition analyze_resume_vs_jd (resume_text job_desc_text : str) : M AnalysisResult :=
  if negb (nonempty (strip resume_text)) || negb (nonempty (strip job_desc_text))
  then raise (ValueError (py "Both resume and job description text must be provided"))
  else
    do process_result <- process_job_description job_desc_text default_collection;
    run print process_result;
    do relevant_chunks <- query_job_description resume_text default_collection 5;
    match relevant_chunks with
    | [] =>
        ret {| score := 0;
               analysis := no_relevant_message;
               relevant_chunks := [] |}
    | _ =>
        do analysis <- generate_analysis resume_text relevant_chunks;
        let score := calculate_match_score U analysis in
        ret {| score := score;
               analysis := analysis;
               relevant_chunks := List.map page_content relevant_chunks |}
    end.

End Pipeline.

(** ** PDF text extraction: [extract_text_from_pdf] *)

(** The plain [Exception] that [extract_text_from_pdf] raises itself. *)
Inductive exception :=
| Exception (msg : str).

Section PdfExtraction.

Variable U : unicode_db.

(** [PyPDFLoader(file_path).load()]: the pages, or the failure of the
    loader. *)
Variable load_pdf : str -> outcome (list Document).

Definition extract_text_from_pdf (file_path : str) : exception + str :=
  match load_pdf file_path with
  | Returned pages =>
      let text_content := join NL (List.map page_content pages) in
      let cleaned_text := clean_text U text_content in
      inr cleaned_text
  | Raised msg => inl (Exception (py "Error reading PDF: " ++ msg))
  end.

End PdfExtraction.

(** ** Temporary files: [safe_file_cleanup] of [app.py] *)

(** What [safe_file_cleanup] does to its surroundings, in order:
    [os.unlink(path)], [time.sleep(0.1)] and [print(text)]. *)
Inductive os_action :=
| Unlink (path : str)
| Sleep
| PrintLine (text : str).

Definition max_retries : nat := 5.

(** The loop [for attempt in range(max_retries)] from [attempt] on, with
    [todo] rounds left.  [unlink_fails n] says whether the call of
    [os.unlink] in round [n] raises ([PermissionError] or another
    [OSError]); a call that returns leaves the loop. *)
Fixpoint cleanup_loop (file_path : str) (unlink_fails : nat -> bool)
    (attempt todo : nat) : list os_action :=
  match todo with
  | O => []
  | S todo' =>
      Unlink file_path ::
      (if unlink_fails attempt
       then (if (attempt <? max_retries - 1)%nat
             then Sleep
             else PrintLine (py "Warning: Could not delete temporary file: "
                             ++ file_path))
            :: cleanup_loop file_path unlink_fails (S attempt) todo'
       else [])
  end.

(** [file_path] is [None] or a string; [path_exists] is [os.path.exists]. *)
Definition safe_file_cleanup (file_path : option str)
    (path_exists : str -> bool) (unlink_fails : nat -> bool) : list os_action :=
  match file_path with
  | Some path =>
      if nonempty path && path_exists path
      then cleanup_loop path unlink_fails 0 max_retries
      else []
  | None => []
  end.

(** * Vocabulary of the statements

    Predicates the properties below are stated with, and sample services
    and texts to run the pipeline on. *)

(** ** Shapes of texts *)

Definition head_space (s : str) : bool :=
  match s with
  | [] => false
  | c :: _ => isspace c
  end.

Definition head_blank (s : str) : bool :=
  match s with
  | [] => false
  | c :: _ => is_blank c
  end.

(** No two neighbouring blanks. *)
Fixpoint single_spaced (s : str) : Prop :=
  match s with
  | a :: r =>
      match r with
      | b :: _ => ~ (a = SPACE /\ b = SPACE)
      | [] => True
      end /\ single_spaced r
  | [] => True
  end.

(** An ASCII character or the bullet, and neither a colon nor a newline. *)
Definition plain (c : char) : bool :=
  (is_ascii c || (c =? BULLET)) && negb (c =? COLON) && negb (c =? NL).

Definition no_newline (line : str) : Prop := has_char NL line = false.

(** ** List items *)






Section Vocabulary.

Variable U : unicode_db.

(** What [clean_text] leaves of a text: kept characters only, blanks as
    the only white space, never two in a row, none at either end. *)
Definition normal_form (t : str) : Prop :=
  Forall (fun c => kept_char U c = true) t
  /\ Forall (fun c => isspace c = true -> c = SPACE) t
  /\ single_spaced t
  /\ strip t = t.

(** One to three decimal digits. *)
Definition digit_group (d : str) : Prop :=
  (1 <= length d <= 3)%nat /\ forallb (isdecimal U) d = true.

(** The percent pattern matches in [a] after [pre], with group [d]. *)
Definition percent_at (a pre d post : str) : Prop :=
  a = pre ++ d ++ PERCENT :: post /\ digit_group d.

Definition percent_occurs (a : str) : Prop :=
  exists pre d post, percent_at a pre d post.

(** [lit] is the literal [pattern] up to the case of its letters. *)
Definition spells_ignorecase (lit pattern : str) : Prop :=
  Forall2 (fun c p => literal_matches_ignorecase U p c = true) lit pattern.

(** The [out of 100] pattern matches in [a] after [pre], with group [d]. *)
Definition out_of_100_at (a pre d lit post : str) : Prop :=
  a = pre ++ d ++ lit ++ post /\ digit_group d
  /\ spells_ignorecase lit (py " out of 100").

Definition out_of_100_occurs (a : str) : Prop :=
  exists pre d lit post, out_of_100_at a pre d lit post.







Variable section_name : str.

Definition not_named (line : str) : Prop :=
  names_section U section_name line = false.

(** Nothing, or a line that starts another top-level section. *)
Definition ends_section (rest : list str) : Prop :=
  match rest with
  | [] => True
  | line :: _ =>
      names_section U section_name line = false
      /\ starts_new_section line = true
  end.

End Vocabulary.

(** ** Samples *)

(** The canned analysis, cut at its GAPS and RECOMMENDATIONS sections. *)
Definition fallback_before_gaps : list str := take 9 fallback_analysis_lines.

Definition fallback_gaps_header : str :=
  py "3. GAPS & AREAS FOR IMPROVEMENT (Missing or Weak in Resume):".

Definition fallback_gaps_body : list str :=
  take 4 (drop 10 fallback_analysis_lines).

Definition fallback_recommendations_header : str := py "4. RECOMMENDATIONS:".

Definition fallback_recommendations_body : list str :=
  take 5 (drop 15 fallback_analysis_lines).

Definition fallback_note : list str := drop 20 fallback_analysis_lines.

(** Services for running the pipeline: an in-memory store whose collections
    exist once written (opening an unknown one fails), a search that
    returns at most [hits] chunks, and a generative model that always ends
    as [answer]. *)
Definition sample_services (hits : nat) (answer : outcome str) : services := {|
  split_documents := fun doc => [doc];
  Chroma_from_documents := fun chunks name db =>
    (Returned tt, <[name := default [] (db !! name) ++ chunks]> db);
  Chroma_open := fun db name =>
    match db !! name with
    | None => (Raised (py "collection does not exist"), db)
    | Some _ => (Returned tt, db)
    end;
  similarity_search := fun db name query k =>
    Returned (take (Nat.min hits k) (default [] (db !! name)));
  chain_invoke := fun _ _ => answer
|}.

Definition fresh_world : world :=
  {| chroma_db := ∅; stdout := []; llm_calls := [] |}.

Definition both_required : str :=
  py "Both resume and job description text must be provided".


Definition fallback_headers : list str :=
  [ py "OVERALL MATCH"; py "STRENGTHS"; py "GAPS & AREAS FOR IMPROVEMENT";
    py "RECOMMENDATIONS" ].

Definition sample_resume : str := py "Python, AWS, 3 years backend".

Definition sample_job_description : str :=
  py "Looking for Python backend engineer with AWS experience".

(** ** Further vocabulary *)

Definition is_unlink (a : os_action) : bool :=
  match a with Unlink _ => true | _ => false end.

Definition is_sleep (a : os_action) : bool :=
  match a with Sleep => true | _ => false end.

Definition is_print (a : os_action) : bool :=
  match a with PrintLine _ => true | _ => false end.

Definition count_actions (p : os_action -> bool) (trace : list os_action) : nat :=
  length (List.filter p trace).

(** Rounds [0 .. k-1] of a cleanup that fails [k] times before it succeeds. *)
Fixpoint failed_rounds (file_path : str) (k : nat) : list os_action :=
  match k with
  | O => []
  | S k' => Unlink file_path :: Sleep :: failed_rounds file_path k'
  end.

(** Services whose store and search answer as scripted: the write and the
    constructor succeed or fail as the flags say, the search always ends as
    [found], the generative model as [answer]. *)
Definition scripted_services (write_ok open_ok : bool)
    (found : outcome (list Document)) (answer : outcome str) : services := {|
  split_documents := fun doc => [doc];
  Chroma_from_documents := fun chunks name db =>
    if write_ok then (Returned tt, <[name := chunks]> db)
    else (Raised (py "embedding service unavailable"), db);
  Chroma_open := fun db name =>
    if open_ok then (Returned tt, db)
    else (Raised (py "collection does not exist"), db);
  similarity_search := fun db name query k => found;
  chain_invoke := fun _ _ => answer
|}.

Definition sample_chunk : Document :=
  {| page_content := py "Python backend engineer with AWS";
     metadata := [] |}.

(** A loader that knows one file of two pages. *)
Definition sample_loader (file_path : str) : outcome (list Document) :=
  if bool_decide (file_path = py "resume.pdf")
  then Returned [ {| page_content := py "  Jane   Doe " ++ [NL] ++ py "Python * AWS";
                     metadata := [] |};
                  {| page_content := py "3 years   backend "; metadata := [] |} ]
  else Raised (py "File not found").

(** A suggestion as the scan appends it: longer than ten characters, with
    no white space around it. *)
Definition well_kept (s : str) : Prop :=
  (10 < length s)%nat /\ strip s = s.

Ltac all_chars := repeat (constructor; try reflexivity).

(** * Properties *)

(** ** The embedding at work *)

Example clean_text_sample :
  clean_text ascii_only (py "  Senior   Engineer @ ACME*  (2019-2024)!  ")
  = py "Senior Engineer ACME (2019-2024)!".
Proof. vm_compute. reflexivity. Qed.

Example split_sample :
  split NL (NL :: py "a" ++ NL :: NL :: py "b" ++ [NL])
  = [ []; py "a"; []; py "b"; [] ].
Proof. reflexivity. Qed.

Example score_leftmost_sample :
  calculate_match_score ascii_only (py "87 out of 100, up 5% since 1234%") = 5%Z.
Proof. vm_compute. reflexivity. Qed.

Example suggestions_of_fallback_sample :
  List.map length
    (get_improvement_suggestions ascii_only (join NL fallback_analysis_lines))
  = [82; 48; 60; 69]%nat.
Proof. vm_compute. reflexivity. Qed.

Example numbered_item_with_colon_ends_section :
  get_improvement_suggestions ascii_only
    (join NL [ py "Suggestions:"; py "1. Quantify your achievements";
               py "2. Skills: list Kubernetes first";
               py "3. Mention your certifications" ])
  = [ py "Quantify your achievements" ].
Proof. vm_compute. reflexivity. Qed.

(** ** Stripping *)

Lemma lstrip_Forall (Q : char -> Prop) s : Forall Q s -> Forall Q (lstrip s).
Proof.
  induction 1 as [|c r Hc Hr IH]; simpl; [constructor|].
  destruct (isspace c); [exact IH | now constructor].
Qed.

Lemma single_spaced_tail c s : single_spaced (c :: s) -> single_spaced s.
Proof. simpl. tauto. Qed.

Lemma lstrip_single_spaced s : single_spaced s -> single_spaced (lstrip s).
Proof.
  induction s as [|c r IH]; intros H; [exact H|].
  cbn [lstrip]. destruct (isspace c); [|exact H].
  apply IH. eapply single_spaced_tail; eauto.
Qed.

Lemma lstrip_head s : head_space (lstrip s) = false.
Proof.
  induction s as [|c r IH]; [reflexivity|].
  cbn [lstrip]. destruct (isspace c) eqn:E; [exact IH | exact E].
Qed.

Lemma lstrip_fixed s : head_space s = false -> lstrip s = s.
Proof. destruct s as [|c r]; simpl; [reflexivity|]. now intros ->. Qed.

Lemma rstrip_cons c r :
  rstrip (c :: r) =
  match rstrip r with
  | [] => if isspace c then [] else [c]
  | d :: r' => c :: d :: r'
  end.
Proof. reflexivity. Qed.

Lemma rstrip_first s d r' : rstrip s = d :: r' -> exists r, s = d :: r.
Proof.
  destruct s as [|c r]; [discriminate|].
  rewrite rstrip_cons. intros H. exists r.
  destruct (rstrip r); [destruct (isspace c)|]; congruence.
Qed.

Lemma rstrip_Forall (Q : char -> Prop) s : Forall Q s -> Forall Q (rstrip s).
Proof.
  induction 1 as [|c r Hc Hr IH]; [constructor|].
  rewrite rstrip_cons. destruct (rstrip r).
  - destruct (isspace c); repeat constructor; assumption.
  - now constructor.
Qed.

Lemma rstrip_single_spaced s : single_spaced s -> single_spaced (rstrip s).
Proof.
  induction s as [|c r IH]; intros H; [exact I|].
  rewrite rstrip_cons. destruct (rstrip r) as [|d r'] eqn:E.
  - destruct (isspace c); simpl; tauto.
  - destruct (rstrip_first _ _ _ E) as [r0 ->].
    destruct H as [Hcd Hr]. specialize (IH Hr).
    split; assumption.
Qed.

Lemma rstrip_idempotent s : rstrip (rstrip s) = rstrip s.
Proof.
  induction s as [|c r IH]; [reflexivity|].
  rewrite rstrip_cons. destruct (rstrip r) as [|d r'] eqn:E.
  - destruct (isspace c) eqn:Ec; [reflexivity|].
    cbn. now rewrite Ec.
  - rewrite rstrip_cons, IH. reflexivity.
Qed.

Lemma rstrip_head s : head_space s = false -> head_space (rstrip s) = false.
Proof.
  destruct s as [|c r]; [reflexivity|].
  cbn [head_space]. intros Hc. rewrite rstrip_cons.
  destruct (rstrip r); [rewrite Hc|]; exact Hc.
Qed.

Lemma strip_head s : head_space (strip s) = false.
Proof. apply rstrip_head, lstrip_head. Qed.

Lemma strip_idempotent s : strip (strip s) = strip s.
Proof.
  unfold strip at 1. rewrite (lstrip_fixed _ (strip_head s)).
  apply rstrip_idempotent.
Qed.

Lemma strip_Forall (Q : char -> Prop) s : Forall Q s -> Forall Q (strip s).
Proof. intros H. apply rstrip_Forall, lstrip_Forall, H. Qed.

Lemma strip_single_spaced s : single_spaced s -> single_spaced (strip s).
Proof. intros H. apply rstrip_single_spaced, lstrip_single_spaced, H. Qed.

(** ** Replacing runs by one blank *)

Lemma sub_runs_from_Forall (Q : char -> Prop) p b s :
  Q SPACE -> Forall Q s -> Forall Q (sub_runs_from p b s).
Proof.
  intros Hsp H. revert b.
  induction H as [|c r Hc Hr IH]; intros b; simpl; [constructor|].
  destruct (p c); [destruct b|]; try constructor; auto.
Qed.

Lemma sub_runs_from_class p b s :
  Forall (fun c => p c = true -> c = SPACE) (sub_runs_from p b s).
Proof.
  revert b. induction s as [|c r IH]; intros b; simpl; [constructor|].
  destruct (p c) eqn:E; [destruct b|]; try constructor; auto.
  congruence.
Qed.

Lemma is_blank_spec c : is_blank c = true <-> c = SPACE.
Proof. unfold is_blank. apply N.eqb_eq. Qed.

Lemma sub_runs_from_head s : head_blank (sub_runs_from is_blank true s) = false.
Proof.
  induction s as [|c r IH]; [reflexivity|].
  simpl. destruct (is_blank c) eqn:E; [exact IH | exact E].
Qed.

Lemma single_spaced_cons c s :
  (c = SPACE -> head_blank s = false) -> single_spaced s ->
  single_spaced (c :: s).
Proof.
  intros Hc Hs. split; [|exact Hs].
  destruct s as [|d s']; [exact I|].
  intros [-> ->]. specialize (Hc eq_refl). discriminate.
Qed.

Lemma sub_runs_from_single_spaced b s :
  single_spaced (sub_runs_from is_blank b s).
Proof.
  revert b. induction s as [|c r IH]; intros b; [exact I|].
  simpl. destruct (is_blank c) eqn:E.
  - destruct b; [apply IH|].
    apply single_spaced_cons; [intros _; apply sub_runs_from_head | apply IH].
  - apply single_spaced_cons; [|apply IH].
    intros ->. discriminate.
Qed.

Lemma sub_runs_fixed p s :
  Forall (fun c => p c = true -> c = SPACE) s -> single_spaced s ->
  sub_runs p s = s.
Proof.
  unfold sub_runs. induction s as [|c r IH]; intros HF HS; [reflexivity|].
  inversion HF as [|? ? Hc Hr]; subst.
  destruct HS as [Hcd HS]. specialize (IH Hr HS).
  simpl. destruct (p c) eqn:E; [|now rewrite IH].
  rewrite (Hc eq_refl) in *. f_equal.
  destruct r as [|d r']; [reflexivity|].
  simpl in IH |- *. inversion Hr as [|? ? Hd _]; subst.
  destruct (p d) eqn:Ed; [|exact IH].
  exfalso. apply Hcd. split; [reflexivity | auto].
Qed.

Lemma filter_fixed (p : char -> bool) s :
  Forall (fun c => p c = true) s -> List.filter p s = s.
Proof.
  induction 1 as [|c r Hc Hr IH]; [reflexivity|].
  simpl. now rewrite Hc, IH.
Qed.

Lemma filter_Forall_kept (p : char -> bool) s :
  Forall (fun c => p c = true) (List.filter p s).
Proof.
  induction s as [|c r IH]; simpl; [constructor|].
  destruct (p c) eqn:E; [constructor|]; assumption.
Qed.

Lemma filter_Forall (Q : char -> Prop) (p : char -> bool) s :
  Forall Q s -> Forall Q (List.filter p s).
Proof.
  induction 1 as [|c r Hc Hr IH]; simpl; [constructor|].
  destruct (p c); [constructor|]; assumption.
Qed.

(** ** Text normalizer *)

Section Normalizer.

Variable U : unicode_db.

Lemma kept_space : kept_char U SPACE = true.
Proof. reflexivity. Qed.

Lemma clean_text_normal_form x : normal_form U (clean_text U x).
Proof.
  destruct x as [|c r].
  - repeat split; constructor.
  - unfold clean_text. cbv zeta. set (x := c :: r).
    repeat split.
    + apply strip_Forall, sub_runs_from_Forall; [apply kept_space|].
      apply filter_Forall_kept.
    + apply strip_Forall, sub_runs_from_Forall; [reflexivity|].
      apply filter_Forall, sub_runs_from_class.
    + apply strip_single_spaced, sub_runs_from_single_spaced.
    + apply strip_idempotent.
Qed.

Lemma clean_text_fixed t : normal_form U t -> clean_text U t = t.
Proof.
  intros (Hk & Hs & Hss & Ht).
  destruct t as [|c r]; [reflexivity|].
  unfold clean_text. cbv zeta.
  rewrite (sub_runs_fixed isspace) by assumption.
  rewrite filter_fixed by assumption.
  rewrite (sub_runs_fixed is_blank); [exact Ht | | assumption].
  eapply Forall_impl; [exact Hs|].
  intros a _ Ha. now apply is_blank_spec.
Qed.

(** C3. Normalization is idempotent: cleaning a cleaned text changes
    nothing, for every text and every Unicode database. *)
Theorem clean_text_idempotent (x : str) :
  clean_text U (clean_text U x) = clean_text U x.
Proof. apply clean_text_fixed, clean_text_normal_form. Qed.

End Normalizer.

(** ** Score extraction *)

Lemma startswith_char s c :
  startswith s [c] = true <-> exists post, s = c :: post.
Proof.
  destruct s as [|a s']; simpl.
  - split; [discriminate | intros [? ?]; discriminate].
  - destruct (N.eqb_spec a c) as [->|Hne]; simpl.
    + destruct s'; split; eauto.
    + split; [discriminate | intros [? H]; congruence].
Qed.

Lemma re_search_Some (m : str -> option str) s g :
  re_search m s = Some g ->
  exists pre rest,
    s = pre ++ rest /\ m rest = Some g /\
    forall pre' rest',
      s = pre' ++ rest' -> (length pre' < length pre)%nat -> m rest' = None.
Proof.
  induction s as [|c r IH]; simpl.
  - destruct (m []) eqn:E; [|discriminate].
    intros [= ->]. exists [], []. repeat split; [exact E|].
    simpl. intros; lia.
  - destruct (m (c :: r)) eqn:E.
    + intros [= ->]. exists [], (c :: r). repeat split; [exact E|].
      simpl. intros; lia.
    + intros H. destruct (IH H) as (pre & rest & -> & Hm & Hmin).
      exists (c :: pre), rest. repeat split; [exact Hm|].
      intros [|c' p'] rest' Heq Hlen; simpl in *.
      * now subst rest'.
      * injection Heq as -> Heq. apply (Hmin p' rest' Heq). lia.
Qed.

Lemma re_search_None (m : str -> option str) s :
  re_search m s = None ->
  forall pre rest, s = pre ++ rest -> m rest = None.
Proof.
  induction s as [|c r IH]; simpl.
  - destruct (m []) eqn:E; [discriminate|].
    intros _ pre rest Heq. symmetry in Heq.
    apply app_eq_nil in Heq as [_ ->]. exact E.
  - destruct (m (c :: r)) eqn:E; [discriminate|].
    intros H [|c' p'] rest Heq; simpl in *.
    + now subst rest.
    + injection Heq as -> Heq. eapply IH; eauto.
Qed.

Section Score.

Variable U : unicode_db.

Lemma startswith_ignorecase_spec s pattern :
  startswith_ignorecase U s pattern = true <->
  exists lit post, s = lit ++ post /\ spells_ignorecase U lit pattern.
Proof.
  revert s. induction pattern as [|p pattern IH]; intros s.
  - split; [|intros _; destruct s; reflexivity].
    intros _. exists [], s. split; [reflexivity | constructor].
  - destruct s as [|c s']; simpl.
    + split; [discriminate|].
      intros (lit & post & Heq & H). inversion H; subst. discriminate.
    + rewrite andb_true_iff, IH. split.
      * intros (Hc & lit & post & -> & H).
        exists (c :: lit), post. split; [reflexivity | now constructor].
      * intros (lit & post & Heq & H). inversion H; subst.
        injection Heq as -> ->. eauto.
Qed.

Lemma digits_then_Some k follow s d :
  digits_then U k follow s = Some d ->
  s = d ++ drop k s /\ length d = k
  /\ forallb (isdecimal U) d = true /\ follow (drop k s) = true.
Proof.
  unfold digits_then.
  destruct (_ && _) eqn:E; [|discriminate].
  intros [= <-].
  apply andb_true_iff in E as [E Hf]. apply andb_true_iff in E as [Hl Hd].
  apply Nat.eqb_eq in Hl.
  repeat split; try assumption. symmetry. apply take_drop.
Qed.

Lemma digits_then_app follow d rest :
  forallb (isdecimal U) d = true -> follow rest = true ->
  digits_then U (length d) follow (d ++ rest) = Some d.
Proof.
  intros Hd Hf. unfold digits_then.
  rewrite take_app_length, drop_app_length, Nat.eqb_refl, Hd, Hf.
  reflexivity.
Qed.

Lemma match_digits_Some follow s d :
  match_digits_1_3 U follow s = Some d ->
  digit_group U d /\ exists rest, s = d ++ rest /\ follow rest = true.
Proof.
  unfold match_digits_1_3, digit_group.
  destruct (digits_then U 3 follow s) eqn:E3;
    [|destruct (digits_then U 2 follow s) eqn:E2];
    intros H; try (injection H as ->);
    match goal with
    | E : digits_then U ?k follow s = Some d |- _ =>
        apply digits_then_Some in E as (Hs & Hl & Hd & Hf)
    end;
    (split; [split; [lia | exact Hd] | eauto]).
Qed.

Lemma match_digits_complete follow d rest :
  digit_group U d -> follow rest = true ->
  exists d', match_digits_1_3 U follow (d ++ rest) = Some d'.
Proof.
  intros [Hl Hd] Hf.
  pose proof (digits_then_app follow d rest Hd Hf) as H.
  unfold match_digits_1_3.
  destruct (digits_then U 3 follow (d ++ rest)) eqn:E3; [eauto|].
  destruct (digits_then U 2 follow (d ++ rest)) eqn:E2; [eauto|].
  destruct d as [|a [|b [|c [|]]]]; cbn [length app] in *; try lia;
    [eauto | congruence | congruence].
Qed.

Lemma search_percent_Some a g :
  re_search (percent_pattern U) a = Some g ->
  exists pre post,
    percent_at U a pre g post /\
    forall pre' d' post', percent_at U a pre' d' post' ->
      (length pre <= length pre')%nat.
Proof.
  intros H. apply re_search_Some in H as (pre & rest & -> & Hm & Hmin).
  apply match_digits_Some in Hm as (Hg & rest2 & -> & Hf).
  apply startswith_char in Hf as [post ->].
  exists pre, post. split; [split; [reflexivity | exact Hg]|].
  intros pre' d' post' [Heq Hg'].
  destruct (Nat.le_gt_cases (length pre) (length pre')) as [|Hlt]; [assumption|].
  specialize (Hmin pre' _ Heq Hlt).
  destruct (match_digits_complete (fun rest => startswith rest [PERCENT])
              d' (PERCENT :: post') Hg') as [d'' Hd''].
  { apply startswith_char. eauto. }
  unfold percent_pattern in Hmin. congruence.
Qed.

Lemma search_percent_None a :
  re_search (percent_pattern U) a = None -> ~ percent_occurs U a.
Proof.
  intros H (pre & d & post & -> & Hg).
  pose proof (re_search_None _ _ H pre _ eq_refl) as Hm.
  destruct (match_digits_complete (fun rest => startswith rest [PERCENT])
              d (PERCENT :: post) Hg) as [d' Hd'].
  { apply startswith_char. eauto. }
  unfold percent_pattern in Hm. congruence.
Qed.

Lemma search_out_of_100_Some a g :
  re_search (out_of_100_pattern U) a = Some g ->
  exists pre lit post,
    out_of_100_at U a pre g lit post /\
    forall pre' d' lit' post', out_of_100_at U a pre' d' lit' post' ->
      (length pre <= length pre')%nat.
Proof.
  intros H. apply re_search_Some in H as (pre & rest & -> & Hm & Hmin).
  apply match_digits_Some in Hm as (Hg & rest2 & -> & Hf).
  apply startswith_ignorecase_spec in Hf as (lit & post & -> & Hlit).
  exists pre, lit, post.
  split; [split; [reflexivity | split; assumption]|].
  intros pre' d' lit' post' (Heq & Hg' & Hlit').
  destruct (Nat.le_gt_cases (length pre) (length pre')) as [|Hlt]; [assumption|].
  specialize (Hmin pre' _ Heq Hlt).
  destruct (match_digits_complete
              (fun rest => startswith_ignorecase U rest (py " out of 100"))
              d' (lit' ++ post') Hg') as [d'' Hd''].
  { apply startswith_ignorecase_spec. eauto. }
  unfold out_of_100_pattern in Hmin. congruence.
Qed.

Lemma search_out_of_100_None a :
  re_search (out_of_100_pattern U) a = None -> ~ out_of_100_occurs U a.
Proof.
  intros H (pre & d & lit & post & -> & Hg & Hlit).
  pose proof (re_search_None _ _ H pre _ eq_refl) as Hm.
  destruct (match_digits_complete
              (fun rest => startswith_ignorecase U rest (py " out of 100"))
              d (lit ++ post) Hg) as [d' Hd'].
  { apply startswith_ignorecase_spec. eauto. }
  unfold out_of_100_pattern in Hm. congruence.
Qed.

Lemma digit_group_nonempty pre d rest : digit_group U d -> pre ++ d ++ rest <> [].
Proof.
  intros [Hl _] H. apply app_eq_nil in H as [_ H].
  apply app_eq_nil in H as [-> _]. simpl in Hl. lia.
Qed.

Lemma calculate_match_score_nonempty a :
  a <> [] ->
  calculate_match_score U a =
  match re_search (percent_pattern U) a with
  | Some g => clamp_score (int_of_digits U g)
  | None =>
      match re_search (out_of_100_pattern U) a with
      | Some g => clamp_score (int_of_digits U g)
      | None => 75%Z
      end
  end.
Proof. destruct a; [congruence | reflexivity]. Qed.

End Score.

Section ScoreClaims.

Variable U : unicode_db.

Lemma match_digits_nondigit follow c r :
  isdecimal U c = false -> match_digits_1_3 U follow (c :: r) = None.
Proof.
  intros Hc. unfold match_digits_1_3, digits_then.
  cbn [take forallb]. rewrite Hc.
  rewrite !andb_false_r. reflexivity.
Qed.

Lemma re_search_skip follow pre rest :
  Forall (fun c => isdecimal U c = false) pre ->
  re_search (match_digits_1_3 U follow) (pre ++ rest)
  = re_search (match_digits_1_3 U follow) rest.
Proof.
  induction 1 as [|c r Hc Hr IH]; [reflexivity|].
  cbn [app re_search]. now rewrite match_digits_nondigit.
Qed.

Lemma re_search_here (m : str -> option str) s g :
  m s = Some g -> re_search m s = Some g.
Proof. intros H. destruct s; simpl; now rewrite H. Qed.

Lemma percent_is_no_digit : isdecimal U PERCENT = false.
Proof. reflexivity. Qed.

(** A digit group right before a percent sign is matched whole. *)
Lemma percent_pattern_group d post :
  digit_group U d -> percent_pattern U (d ++ PERCENT :: post) = Some d.
Proof.
  intros [Hl Hd]. pose proof percent_is_no_digit as Hp.
  unfold percent_pattern, match_digits_1_3, digits_then.
  destruct d as [|a [|b [|c [|]]]]; cbn [length] in Hl; try lia;
    cbn [app take drop length forallb Nat.eqb] in *;
    repeat match goal with
           | H : _ && _ = true |- _ => apply andb_true_iff in H as [? ?]
           end;
    repeat match goal with
           | H : isdecimal U _ = _ |- _ => rewrite H
           end;
    rewrite ?andb_false_r; cbn; rewrite ?N.eqb_refl; reflexivity.
Qed.

Lemma score_of_percent_text pre d post :
  Forall (fun c => isdecimal U c = false) pre ->
  digit_group U d ->
  calculate_match_score U (pre ++ d ++ PERCENT :: post)
  = clamp_score (int_of_digits U d).
Proof.
  intros Hpre Hd.
  rewrite calculate_match_score_nonempty
    by exact (digit_group_nonempty U pre d _ Hd).
  unfold percent_pattern at 1. rewrite re_search_skip by exact Hpre.
  fold (percent_pattern U).
  now rewrite (re_search_here _ _ d (percent_pattern_group d post Hd)).
Qed.

(** C1. The test vectors of score extraction, for the texts themselves and
    for every text that contains the percent vectors after a prefix without
    digits; the percent pattern decides whenever it occurs, at its leftmost
    match, and the [out of 100] pattern is consulted only when no percent
    pattern occurs. *)
Theorem score_extraction_vectors :
  calculate_match_score U (py "Match: 83%") = 83%Z
  /\ calculate_match_score U (py "score: 142%") = 100%Z
  /\ calculate_match_score U (py "no numeric info") = 75%Z
  /\ calculate_match_score U (py "87 out of 100") = 87%Z
  /\ (forall pre post, Forall (fun c => isdecimal U c = false) pre ->
        calculate_match_score U (pre ++ py "83%" ++ post) = 83%Z)
  /\ (forall pre post, Forall (fun c => isdecimal U c = false) pre ->
        calculate_match_score U (pre ++ py "142%" ++ post) = 100%Z)
  /\ (forall a, percent_occurs U a ->
        exists pre d post,
          percent_at U a pre d post
          /\ (forall pre' d' post', percent_at U a pre' d' post' ->
                (length pre <= length pre')%nat)
          /\ calculate_match_score U a = clamp_score (int_of_digits U d))
  /\ (forall a, ~ percent_occurs U a -> out_of_100_occurs U a ->
        exists pre d lit post,
          out_of_100_at U a pre d lit post
          /\ (forall pre' d' lit' post', out_of_100_at U a pre' d' lit' post' ->
                (length pre <= length pre')%nat)
          /\ calculate_match_score U a = clamp_score (int_of_digits U d)).
Proof.
  repeat match goal with |- _ /\ _ => split end.
  - vm_compute. reflexivity.
  - vm_compute. reflexivity.
  - vm_compute. reflexivity.
  - vm_compute. reflexivity.
  - intros pre post Hpre.
    change (py "83%" ++ post) with (py "83" ++ PERCENT :: post).
    rewrite score_of_percent_text; [reflexivity | exact Hpre |].
    split; [simpl; lia | reflexivity].
  - intros pre post Hpre.
    change (py "142%" ++ post) with (py "142" ++ PERCENT :: post).
    rewrite score_of_percent_text; [reflexivity | exact Hpre |].
    split; [simpl; lia | reflexivity].
  - intros a Hocc.
    assert (Hne : a <> []).
    { destruct Hocc as (pre & d & post & -> & Hg).
      exact (digit_group_nonempty U pre d _ Hg). }
    rewrite calculate_match_score_nonempty by exact Hne.
    destruct (re_search (percent_pattern U) a) as [g|] eqn:E.
    + apply search_percent_Some in E as (pre & post & Hat & Hmin).
      exists pre, g, post. auto.
    + destruct (search_percent_None U a E Hocc).
  - intros a Hno Hocc.
    assert (Hne : a <> []).
    { destruct Hocc as (pre & d & lit & post & -> & Hg & _).
      exact (digit_group_nonempty U pre d _ Hg). }
    rewrite calculate_match_score_nonempty by exact Hne.
    destruct (re_search (percent_pattern U) a) as [g|] eqn:E.
    + exfalso. apply Hno.
      apply search_percent_Some in E as (pre & post & Hat & _).
      exists pre, g, post. exact Hat.
    + destruct (re_search (out_of_100_pattern U) a) as [g|] eqn:E'.
      * apply search_out_of_100_Some in E' as (pre & lit & post & Hat & Hmin).
        exists pre, g, lit, post. auto.
      * destruct (search_out_of_100_None U a E' Hocc).
Qed.

(** C2, as the code has it. A text in which neither pattern occurs scores
    the default 75 when it is not empty, and 0 when it is empty. *)
Theorem default_score (a : str) :
  ~ percent_occurs U a -> ~ out_of_100_occurs U a ->
  calculate_match_score U a = if nonempty a then 75%Z else 0%Z.
Proof.
  intros Hp Ho. destruct a as [|c r]; [reflexivity|].
  rewrite calculate_match_score_nonempty by discriminate.
  destruct (re_search (percent_pattern U) (c :: r)) as [g|] eqn:E.
  - exfalso. apply Hp.
    apply search_percent_Some in E as (pre & post & Hat & _).
    exists pre, g, post. exact Hat.
  - destruct (re_search (out_of_100_pattern U) (c :: r)) as [g|] eqn:E'.
    + exfalso. apply Ho.
      apply search_out_of_100_Some in E' as (pre & lit & post & Hat & _).
      exists pre, g, lit, post. exact Hat.
    + reflexivity.
Qed.

End ScoreClaims.

(** C2 at a text without numbers: neither pattern occurs in it, and it
    scores 75. *)
Lemma default_score_witness :
  ~ percent_occurs ascii_only (py "no numeric info")
  /\ ~ out_of_100_occurs ascii_only (py "no numeric info")
  /\ calculate_match_score ascii_only (py "no numeric info") = 75%Z.
Proof.
  assert (Hp : ~ percent_occurs ascii_only (py "no numeric info")).
  { apply search_percent_None. vm_compute. reflexivity. }
  assert (Ho : ~ out_of_100_occurs ascii_only (py "no numeric info")).
  { apply search_out_of_100_None. vm_compute. reflexivity. }
  split; [exact Hp | split; [exact Ho |]].
  exact (default_score ascii_only (py "no numeric info") Hp Ho).
Defined.

(** C2 as stated fails at the empty text: no pattern occurs in it, and its
    score is 0, not 75. *)
Lemma empty_text_scores_zero :
  (forall U, ~ percent_occurs U [])
  /\ (forall U, ~ out_of_100_occurs U [])
  /\ (forall U, calculate_match_score U [] = 0%Z)
  /\ 0%Z <> 75%Z.
Proof.
  repeat split; try discriminate.
  - intros U. apply search_percent_None. vm_compute. reflexivity.
  - intros U. apply search_out_of_100_None. vm_compute. reflexivity.
Qed.

(** ** Lines *)

Lemma has_char_cons c a s : has_char c (a :: s) = (a =? c) || has_char c s.
Proof. unfold has_char. simpl. now rewrite (N.eqb_sym c a). Qed.

Lemma has_char_app c s t : has_char c (s ++ t) = has_char c s || has_char c t.
Proof. unfold has_char. apply existsb_app. Qed.

Lemma has_char_In c s : has_char c s = true <-> In c s.
Proof.
  unfold has_char. rewrite existsb_exists. split.
  - intros (x & Hx & Heq). apply N.eqb_eq in Heq. now subst.
  - intros H. exists c. split; [exact H | apply N.eqb_refl].
Qed.

Lemma split_line sep l rest :
  has_char sep l = false -> split sep (l ++ sep :: rest) = l :: split sep rest.
Proof.
  induction l as [|c l IH]; intros H.
  - simpl. now rewrite N.eqb_refl.
  - rewrite has_char_cons in H. apply orb_false_iff in H as [Hc Hl].
    simpl. rewrite Hc, (IH Hl). reflexivity.
Qed.

Lemma split_last sep l : has_char sep l = false -> split sep l = [l].
Proof.
  induction l as [|c l IH]; intros H; [reflexivity|].
  rewrite has_char_cons in H. apply orb_false_iff in H as [Hc Hl].
  simpl. rewrite Hc, (IH Hl). reflexivity.
Qed.

(** Splitting the joined lines gives the lines back. *)
Lemma split_join sep l ls :
  Forall (fun x => has_char sep x = false) (l :: ls) ->
  split sep (join sep (l :: ls)) = l :: ls.
Proof.
  revert l. induction ls as [|l' ls IH]; intros l H.
  - inversion H; subst. now apply split_last.
  - inversion H as [|? ? Hl Hls]; subst.
    change (join sep (l :: l' :: ls)) with (l ++ sep :: join sep (l' :: ls)).
    rewrite (split_line _ _ _ Hl), (IH _ Hls). reflexivity.
Qed.







(** ** Lower case of tabulated characters *)

Section Lowering.

Variable U : unicode_db.




Lemma plain_no_colon s :
  Forall (fun c => plain c = true) s -> has_char COLON s = false.
Proof.
  induction 1 as [|c r Hc Hr IH]; [reflexivity|].
  rewrite has_char_cons, IH, orb_false_r.
  unfold plain in Hc. apply andb_true_iff in Hc as [Hc _].
  apply andb_true_iff in Hc as [_ Hc]. now apply negb_true_iff in Hc.
Qed.

Lemma plain_no_newline s :
  Forall (fun c => plain c = true) s -> has_char NL s = false.
Proof.
  induction 1 as [|c r Hc Hr IH]; [reflexivity|].
  rewrite has_char_cons, IH, orb_false_r.
  unfold plain in Hc. apply andb_true_iff in Hc as [_ Hc].
  now apply negb_true_iff in Hc.
Qed.


Lemma plain_not_section_start line :
  Forall (fun c => plain c = true) line -> starts_new_section line = false.
Proof.
  intros H. unfold starts_new_section.
  now rewrite (plain_no_colon line H), andb_false_r.
Qed.

End Lowering.

(** ** Suggestion extraction *)

Section Suggestions.

Variable U : unicode_db.










End Suggestions.

Section SuggestionClaims.

Variable U : unicode_db.




(** C9, as the code has it. A text from which the scan collects no item
    gets the four generic suggestions when it is not empty, and the single
    message of the guard when it is empty. *)
Theorem no_items_gives_fallback (a : str) :
  scan_suggestions U false [] (split NL a) = [] ->
  get_improvement_suggestions U a
  = (if nonempty a then generic_suggestions else no_analysis_message)
  /\ length generic_suggestions = 4%nat.
Proof.
  intros H. split; [|reflexivity].
  destruct a as [|c r]; [reflexivity|].
  unfold get_improvement_suggestions. now rewrite H.
Qed.

End SuggestionClaims.


(** C9 at a text without a list: nothing is collected, and the generic
    suggestions are returned. *)
Lemma no_items_witness :
  scan_suggestions ascii_only false [] (split NL (py "Looks fine overall.")) = []
  /\ get_improvement_suggestions ascii_only (py "Looks fine overall.")
     = generic_suggestions
  /\ length generic_suggestions = 4%nat.
Proof.
  split; [reflexivity|].
  exact (no_items_gives_fallback ascii_only (py "Looks fine overall.") eq_refl).
Defined.

(** C9 as stated fails at the empty text: nothing is collected from it, and
    the result is the guard's message, not the generic suggestions. *)
Lemma empty_text_suggestions :
  (forall U, scan_suggestions U false [] (split NL []) = [])
  /\ (forall U, get_improvement_suggestions U [] = no_analysis_message)
  /\ no_analysis_message <> generic_suggestions.
Proof. repeat split; discriminate. Qed.

(** ** Section extraction *)

Lemma split_join_lines sep lines :
  lines <> [] ->
  Forall (fun x => has_char sep x = false) lines ->
  split sep (join sep lines) = lines.
Proof. destruct lines; [congruence | intros _; apply split_join]. Qed.

Lemma join_nonempty_in sep lines l :
  In l lines -> l <> [] -> join sep lines <> [].
Proof.
  induction lines as [|x lines IH]; intros Hin Hl; [destruct Hin|].
  destruct lines as [|y lines].
  - destruct Hin as [->|[]]. exact Hl.
  - change (join sep (x :: y :: lines)) with (x ++ sep :: join sep (y :: lines)).
    intros H. apply app_eq_nil in H as [_ H]. discriminate.
Qed.

Section Sections.

Variable U : unicode_db.
Variable section_name : str.

Lemma collect_section_skip section_lines pre rest :
  Forall (not_named U section_name) pre ->
  collect_section U section_name false section_lines (pre ++ rest)
  = collect_section U section_name false section_lines rest.
Proof.
  induction 1 as [|line pre Hl Hpre IH]; [reflexivity|].
  cbn [app collect_section]. now rewrite Hl.
Qed.

Lemma collect_section_stop section_lines body rest :
  ends_section U section_name rest ->
  collect_section U section_name true section_lines (body ++ rest)
  = collect_section U section_name true section_lines body.
Proof.
  intros Hrest. revert section_lines.
  induction body as [|line body IH]; intros section_lines.
  - destruct rest as [|line rest]; [reflexivity|].
    destruct Hrest as [Hn Hs]. cbn [app collect_section].
    now rewrite Hn, Hs.
  - cbn [app collect_section].
    destruct (names_section U section_name line); [apply IH|].
    destruct (starts_new_section line); [reflexivity | apply IH].
Qed.

Lemma extract_section_lines lines line :
  In line lines -> line <> [] -> Forall no_newline lines ->
  extract_section U (join NL lines) section_name
  = match strip (join NL (collect_section U section_name false [] lines)) with
    | [] => py "No specific content found for " ++ section_name
    | result => result
    end.
Proof.
  intros Hin Hne Hnl.
  pose proof (join_nonempty_in NL lines line Hin Hne) as Hj.
  unfold extract_section.
  destruct (join NL lines) eqn:E; [contradiction|].
  rewrite <- E, split_join_lines; [reflexivity | | exact Hnl].
  intros ->. destruct Hin.
Qed.

Lemma names_section_nonempty line :
  names_section U section_name line = true -> line <> [].
Proof.
  intros H ->. unfold names_section in H.
  now rewrite andb_false_r in H.
Qed.

(** C8, as the code has it. Take a text in which [header] is the first line
    that names the section, and in which the section is followed by another
    top-level section ([other_header] and [other_body]) none of whose lines
    names the first one; what follows is the end of the text or a further
    top-level section.  Moving the other section before the named one does
    not change what is extracted for it. *)
Theorem extraction_stable_under_reordering
    (pre : list str) (header : str) (body : list str)
    (other_header : str) (other_body post : list str) :
  Forall no_newline (pre ++ header :: body ++ other_header :: other_body ++ post) ->
  Forall (not_named U section_name) pre ->
  names_section U section_name header = true ->
  starts_new_section other_header = true ->
  Forall (not_named U section_name) (other_header :: other_body) ->
  ends_section U section_name post ->
  extract_section U
    (join NL (pre ++ header :: body ++ other_header :: other_body ++ post))
    section_name
  = extract_section U
      (join NL (pre ++ other_header :: other_body ++ header :: body ++ post))
      section_name.
Proof.
  intros Hnl Hpre Hh Hstart Hother Hpost.
  pose proof (names_section_nonempty header Hh) as Hne.
  assert (Hends : ends_section U section_name (other_header :: other_body ++ post)).
  { inversion Hother; subst. split; assumption. }
  rewrite (extract_section_lines _ header);
    [| apply in_or_app; right; now left | exact Hne | exact Hnl].
  rewrite (extract_section_lines _ header); [| | exact Hne |].
  - rewrite collect_section_skip by exact Hpre.
    replace (pre ++ other_header :: other_body ++ header :: body ++ post)
      with ((pre ++ other_header :: other_body) ++ header :: body ++ post)
      by now rewrite <- app_assoc.
    rewrite collect_section_skip by (apply Forall_app; split; assumption).
    cbn [collect_section]. rewrite Hh.
    now rewrite (collect_section_stop [] body _ Hends),
                (collect_section_stop [] body _ Hpost).
  - apply in_or_app. right. right. apply in_or_app. right. now left.
  - apply Forall_app in Hnl as [H1 H2].
    inversion H2 as [|? ? H3 H4]; subst.
    apply Forall_app in H4 as [H4 H5].
    inversion H5 as [|? ? H6 H7]; subst.
    apply Forall_app in H7 as [H7 H8].
    apply Forall_app. split; [exact H1|].
    constructor; [exact H6|].
    apply Forall_app. split; [exact H7|].
    constructor; [exact H3|].
    apply Forall_app. split; assumption.
Qed.

End Sections.

(** C8 on the canned analysis: with its RECOMMENDATIONS section moved before
    its GAPS section, the same GAPS content is extracted. *)
Lemma extraction_stable_witness :
  extract_section ascii_only (join NL fallback_analysis_lines) (py "GAPS")
  = extract_section ascii_only
      (join NL (fallback_before_gaps
                ++ fallback_recommendations_header :: fallback_recommendations_body
                ++ fallback_gaps_header :: fallback_gaps_body
                ++ fallback_note))
      (py "GAPS").
Proof.
  apply (extraction_stable_under_reordering ascii_only (py "GAPS")
           fallback_before_gaps fallback_gaps_header fallback_gaps_body
           fallback_recommendations_header fallback_recommendations_body
           fallback_note).
  - repeat (constructor; [reflexivity|]). constructor.
  - repeat (constructor; [reflexivity|]). constructor.
  - reflexivity.
  - reflexivity.
  - repeat (constructor; [reflexivity|]). constructor.
  - split; reflexivity.
Defined.

(** C8 as stated fails when a line of the RECOMMENDATIONS section mentions
    gaps before a colon: with that section first, the extraction starts at
    that line and the GAPS content gains a recommendation. *)
Lemma extraction_changed_by_reordering :
  extract_section ascii_only
    (join NL [ py "3. GAPS & AREAS FOR IMPROVEMENT:";
               py "- Limited cloud exposure";
               py "4. RECOMMENDATIONS:";
               py "- Close the skill gaps: take an AWS course";
               py "- Add metrics to every bullet" ])
    (py "GAPS")
  = py "- Limited cloud exposure"
  /\ extract_section ascii_only
       (join NL [ py "4. RECOMMENDATIONS:";
                  py "- Close the skill gaps: take an AWS course";
                  py "- Add metrics to every bullet";
                  py "3. GAPS & AREAS FOR IMPROVEMENT:";
                  py "- Limited cloud exposure" ])
       (py "GAPS")
     = py "- Add metrics to every bullet" ++ NL :: py "- Limited cloud exposure"
  /\ py "- Limited cloud exposure"
     <> py "- Add metrics to every bullet" ++ NL :: py "- Limited cloud exposure".
Proof. repeat split; try (vm_compute; reflexivity). discriminate. Qed.

(** ** The analysis pipeline *)

Lemma nonempty_false s : nonempty s = false <-> s = [].
Proof. destruct s; simpl; split; congruence. Qed.

Lemma nonempty_true s : nonempty s = true <-> s <> [].
Proof. destruct s; simpl; split; congruence. Qed.

Section PipelineClaims.

Variable U : unicode_db.
Variable svc : services.

Lemma process_job_description_outcome jd name w r w1 :
  process_job_description U svc jd name w = (r, w1) ->
  llm_calls w1 = llm_calls w
  /\ (forall msg, r = inl (ValueError msg) -> strip jd = [] /\ w1 = w).
Proof.
  unfold process_job_description.
  destruct (nonempty (strip jd)) eqn:E; cbn [negb].
  - unfold bind, store_chunks, ret.
    destruct (Chroma_from_documents svc _ name (chroma_db w)) as [[[]|msg] db];
      intros [= <- <-]; (split; [reflexivity | intros ? [=]]).
  - unfold raise. intros [= <- <-]. split; [reflexivity|].
    intros _ _. split; [now apply nonempty_false | reflexivity].
Qed.

Lemma query_job_description_outcome resume name k w r w1 :
  query_job_description U svc resume name k w = (r, w1) ->
  llm_calls w1 = llm_calls w
  /\ (forall msg, r = inl (ValueError msg) -> strip resume = [] /\ w1 = w).
Proof.
  unfold query_job_description.
  destruct (nonempty (strip resume)) eqn:E; cbn [negb].
  - unfold bind, try_except, open_collection, search_collection, ret.
    destruct (Chroma_open svc (chroma_db w) name) as [[[]|msg] db].
    + destruct (similarity_search svc _ _ _ k) as [docs|msg];
        intros [= <- <-]; (split; [reflexivity | intros ? [=]]).
    + intros [= <- <-]. split; [reflexivity | intros ? [=]].
  - unfold raise. intros [= <- <-]. split; [reflexivity|].
    intros _ _. split; [now apply nonempty_false | reflexivity].
Qed.

Lemma generate_analysis_returns resume chunks w :
  exists text w1, generate_analysis svc resume chunks w = (inr text, w1).
Proof.
  unfold generate_analysis, try_except, invoke_chain, bind, print, ret.
  destruct (chain_invoke svc _ resume); cbn; eauto.
Qed.

(** C4. Input validation rejects a call exactly when the resume or the job
    description is empty once stripped: the call then fails with the
    [ValueError] of the first guard, before anything else happens; with two
    non-empty inputs no [ValueError] comes out of the pipeline at all. *)
Theorem analyze_rejects_empty_inputs (resume_text job_desc_text : str) (w : world) :
  (fst (analyze_resume_vs_jd U svc resume_text job_desc_text w)
     = inl (ValueError both_required)
   <-> strip resume_text = [] \/ strip job_desc_text = [])
  /\ (forall msg,
        fst (analyze_resume_vs_jd U svc resume_text job_desc_text w)
          = inl (ValueError msg) ->
        msg = both_required
        /\ snd (analyze_resume_vs_jd U svc resume_text job_desc_text w) = w)
  /\ analyze_resume_vs_jd U svc [] (py "non-empty") w
     = (inl (ValueError both_required), w)
  /\ analyze_resume_vs_jd U svc (py "non-empty") [] w
     = (inl (ValueError both_required), w).
Proof.
  assert (Hreject :
    strip resume_text = [] \/ strip job_desc_text = [] ->
    analyze_resume_vs_jd U svc resume_text job_desc_text w
    = (inl (ValueError both_required), w)).
  { intros H. unfold analyze_resume_vs_jd.
    replace (negb (nonempty (strip resume_text))
             || negb (nonempty (strip job_desc_text))) with true; [reflexivity|].
    symmetry. apply orb_true_iff.
    destruct H as [H|H]; [left | right]; now rewrite H. }
  assert (Haccept :
    strip resume_text <> [] -> strip job_desc_text <> [] ->
    forall msg,
      fst (analyze_resume_vs_jd U svc resume_text job_desc_text w)
      <> inl (ValueError msg)).
  { intros Hr Hj msg. unfold analyze_resume_vs_jd.
    apply nonempty_true in Hr as Hr'. apply nonempty_true in Hj as Hj'.
    rewrite Hr', Hj'. cbn [negb orb]. unfold bind at 1.
    destruct (process_job_description U svc job_desc_text default_collection w)
      as [[e|report] w1] eqn:E1.
    { cbn [fst]. intros [= ->].
      apply process_job_description_outcome in E1 as [_ E1].
      destruct (E1 _ eq_refl) as [E _]. contradiction. }
    unfold bind at 1. unfold print at 1. unfold bind at 1.
    match goal with
    | |- context [query_job_description U svc resume_text default_collection 5 ?w'] =>
        destruct (query_job_description U svc resume_text default_collection 5 w')
          as [[e|chunks] w2] eqn:E2
    end.
    { cbn [fst]. intros [= ->].
      apply query_job_description_outcome in E2 as [_ E2].
      destruct (E2 _ eq_refl) as [E _]. contradiction. }
    destruct chunks as [|chunk chunks]; [discriminate|].
    unfold bind.
    destruct (generate_analysis_returns resume_text (chunk :: chunks) w2)
      as (text & w3 & ->).
    discriminate. }
  split; [split|split; [|split]].
  - intros H.
    destruct (strip resume_text) eqn:Er; [now left|].
    destruct (strip job_desc_text) eqn:Ej; [now right|].
    exfalso.
    eapply Haccept; [| | exact H];
      first [discriminate | rewrite Er; discriminate | rewrite Ej; discriminate].
  - intros H. now rewrite Hreject.
  - intros msg H.
    destruct (strip resume_text) eqn:Er.
    { rewrite Hreject in * by now left.
      cbn in H. injection H as <-. split; reflexivity. }
    destruct (strip job_desc_text) eqn:Ej.
    { rewrite Hreject in * by now right.
      cbn in H. injection H as <-. split; reflexivity. }
    exfalso.
    eapply Haccept; [| | exact H];
      first [discriminate | rewrite Er; discriminate | rewrite Ej; discriminate].
  - reflexivity.
  - reflexivity.
Qed.

End PipelineClaims.

Section ServiceClaims.

Variable U : unicode_db.
Variable svc : services.


(** C7. When the call of the generative model fails, whatever the error,
    [generate_analysis] returns the canned analysis; that text holds the
    four section headers and the score text, and its extracted score
    is 78. *)
Theorem generation_failure_falls_back
    (resume_text : str) (relevant_chunks : list Document) (w : world) (msg : str) :
  chain_invoke svc (join NL (List.map page_content relevant_chunks)) resume_text
    = Raised msg ->
  fst (generate_analysis svc resume_text relevant_chunks w)
    = inr (join NL fallback_analysis_lines)
  /\ forallb (fun h => contains h (join NL fallback_analysis_lines))
       fallback_headers = true
  /\ contains (py "78%") (join NL fallback_analysis_lines) = true
  /\ calculate_match_score U (join NL fallback_analysis_lines) = 78%Z.
Proof.
  intros Hfail. repeat split; try (vm_compute; reflexivity).
  unfold generate_analysis, try_except, invoke_chain, bind, print, ret.
  rewrite Hfail. reflexivity.
Qed.

(** C10. With two non-empty inputs, a stored job description and a
    retrieval that comes back empty, the analysis does not raise; it returns
    score 0, the fixed message and no chunks, and the generative model has
    not been called. *)
Theorem no_relevant_chunks_result
    (resume_text job_desc_text report : str) (w w1 w2 : world) :
  strip resume_text <> [] ->
  strip job_desc_text <> [] ->
  process_job_description U svc job_desc_text default_collection w
    = (inr report, w1) ->
  query_job_description U svc resume_text default_collection 5
    (snd (print report w1)) = (inr [], w2) ->
  analyze_resume_vs_jd U svc resume_text job_desc_text w
    = (inr {| score := 0;
              analysis := py "No relevant job description requirements found. Please check your inputs.";
              relevant_chunks := [] |}, w2)
  /\ llm_calls w2 = llm_calls w.
Proof.
  intros Hr Hj Hp Hq.
  apply nonempty_true in Hr. apply nonempty_true in Hj.
  split.
  - unfold analyze_resume_vs_jd. rewrite Hr, Hj. cbn [negb orb].
    unfold bind at 1. rewrite Hp.
    unfold bind at 1. unfold print at 1. unfold bind at 1.
    unfold print in Hq. cbn [snd] in Hq. rewrite Hq. reflexivity.
  - apply query_job_description_outcome in Hq as [Hq _].
    apply process_job_description_outcome in Hp as [Hp _].
    rewrite Hq. cbn. exact Hp.
Qed.

End ServiceClaims.



(** C7 with a model that fails with a quota error. *)
Lemma generation_failure_witness :
  fst (generate_analysis (sample_services 5 (Raised (py "429 quota exceeded")))
         (py "Python, AWS, 3 years backend")
         [ {| page_content := py "Python backend engineer"; metadata := [] |} ]
         fresh_world)
    = inr (join NL fallback_analysis_lines)
  /\ forallb (fun h => contains h (join NL fallback_analysis_lines))
       fallback_headers = true
  /\ contains (py "78%") (join NL fallback_analysis_lines) = true
  /\ calculate_match_score ascii_only (join NL fallback_analysis_lines) = 78%Z.
Proof.
  exact (generation_failure_falls_back ascii_only
           (sample_services 5 (Raised (py "429 quota exceeded")))
           (py "Python, AWS, 3 years backend")
           [ {| page_content := py "Python backend engineer"; metadata := [] |} ]
           fresh_world (py "429 quota exceeded") eq_refl).
Defined.

(** C10 with a search that finds nothing: the job description is stored,
    the retrieval is empty, and the model is never called. *)
Lemma no_relevant_chunks_witness :
  fst (analyze_resume_vs_jd ascii_only (sample_services 0 (Returned (py "unused")))
         sample_resume sample_job_description fresh_world)
    = inr {| score := 0;
             analysis := py "No relevant job description requirements found. Please check your inputs.";
             relevant_chunks := [] |}
  /\ llm_calls
       (snd (analyze_resume_vs_jd ascii_only
               (sample_services 0 (Returned (py "unused")))
               sample_resume sample_job_description fresh_world))
     = [].
Proof.
  set (svc := sample_services 0 (Returned (py "unused"))).
  set (report := py "Processed and stored 1 chunks from job description.").
  set (p := process_job_description ascii_only svc sample_job_description
              default_collection fresh_world).
  assert (Hp : p = (inr report, snd p)) by reflexivity.
  set (q := query_job_description ascii_only svc sample_resume
              default_collection 5 (snd (print report (snd p)))).
  assert (Hq : q = (inr [], snd q)).
  { unfold q, query_job_description.
    change (negb (nonempty (strip sample_resume))) with false. cbv iota.
    unfold bind, try_except, open_collection, search_collection, ret.
    unfold svc, sample_services. cbn [Chroma_open similarity_search].
    match goal with
    | |- context [match ?db !! ?n with _ => _ end] => destruct (db !! n)
    end; reflexivity. }
  destruct (no_relevant_chunks_result ascii_only svc sample_resume
              sample_job_description report fresh_world (snd p) (snd q))
    as [H1 H2].
  - vm_compute. discriminate.
  - vm_compute. discriminate.
  - exact Hp.
  - exact Hq.
  - rewrite H1. split; [reflexivity | exact H2].
Defined.

(** * Further properties *)

(** ** Scores *)

Lemma clamp_score_in_range n : (0 <= clamp_score n <= 100)%Z.
Proof. unfold clamp_score. lia. Qed.

(** X1. Whatever the text, the extracted score lies between 0 and 100. *)
Theorem match_score_in_range (U : unicode_db) (analysis : str) :
  (0 <= calculate_match_score U analysis <= 100)%Z.
Proof.
  unfold calculate_match_score. destruct analysis as [|c r]; [lia|].
  destruct (re_search (percent_pattern U) (c :: r));
    [apply clamp_score_in_range|].
  destruct (re_search (out_of_100_pattern U) (c :: r));
    [apply clamp_score_in_range | lia].
Qed.

Lemma fallback_score (U : unicode_db) :
  calculate_match_score U (join NL fallback_analysis_lines) = 78%Z.
Proof. vm_compute. reflexivity. Qed.

(** ** The pipeline, step by step *)

Section PipelineSteps.

Variable U : unicode_db.
Variable svc : services.

(** The analysis behind its validation, as the sequence of its steps. *)
Lemma analyze_steps resume_text job_desc_text w :
  nonempty (strip resume_text) = true ->
  nonempty (strip job_desc_text) = true ->
  analyze_resume_vs_jd U svc resume_text job_desc_text w
  = match process_job_description U svc job_desc_text default_collection w with
    | (inl e, w1) => (inl e, w1)
    | (inr report, w1) =>
        match query_job_description U svc resume_text default_collection 5
                (snd (print report w1)) with
        | (inl e, w2) => (inl e, w2)
        | (inr [], w2) =>
            (inr {| score := 0; analysis := no_relevant_message;
                    relevant_chunks := [] |}, w2)
        | (inr (c :: cs), w2) =>
            match generate_analysis svc resume_text (c :: cs) w2 with
            | (inl e, w3) => (inl e, w3)
            | (inr text, w3) =>
                (inr {| score := calculate_match_score U text;
                        analysis := text;
                        relevant_chunks := List.map page_content (c :: cs) |},
                 w3)
            end
        end
    end.
Proof.
  intros Hr Hj. unfold analyze_resume_vs_jd. rewrite Hr, Hj. cbn [negb orb].
  unfold bind at 1.
  destruct (process_job_description U svc job_desc_text default_collection w)
    as [[e|report] w1]; [reflexivity|].
  unfold bind at 1. unfold print at 1. unfold bind at 1.
  unfold print. cbn [snd].
  match goal with
  | |- context [query_job_description U svc resume_text default_collection 5 ?w'] =>
      destruct (query_job_description U svc resume_text default_collection 5 w')
        as [[e|[|c cs]] w2]
  end; reflexivity.
Qed.

Lemma process_accepts job_desc_text name w report w1 :
  process_job_description U svc job_desc_text name w = (inr report, w1) ->
  nonempty (strip job_desc_text) = true.
Proof.
  unfold process_job_description.
  destruct (nonempty (strip job_desc_text)); [reflexivity|].
  cbn. discriminate.
Qed.

Lemma query_accepts resume_text name k w chunks w1 :
  query_job_description U svc resume_text name k w = (inr chunks, w1) ->
  nonempty (strip resume_text) = true.
Proof.
  unfold query_job_description.
  destruct (nonempty (strip resume_text)); [reflexivity|].
  cbn. discriminate.
Qed.

(** What [generate_analysis] does, whatever the model answers. *)
Lemma generate_analysis_run resume_text chunks w :
  generate_analysis svc resume_text chunks w
  = match chain_invoke svc (join NL (List.map page_content chunks)) resume_text with
    | Returned text =>
        (inr text,
         {| chroma_db := chroma_db w; stdout := stdout w;
            llm_calls := llm_calls w
                         ++ [(join NL (List.map page_content chunks), resume_text)] |})
    | Raised msg =>
        (inr (join NL fallback_analysis_lines),
         {| chroma_db := chroma_db w;
            stdout := stdout w ++ [py "Google API Error: " ++ msg];
            llm_calls := llm_calls w
                         ++ [(join NL (List.map page_content chunks), resume_text)] |})
    end.
Proof.
  unfold generate_analysis, try_except, invoke_chain, bind, print, ret.
  destruct (chain_invoke svc _ resume_text); reflexivity.
Qed.

(** X2. Every result the analysis returns carries a score between 0
    and 100. *)
Theorem analysis_score_in_range resume_text job_desc_text w result w' :
  analyze_resume_vs_jd U svc resume_text job_desc_text w = (inr result, w') ->
  (0 <= score result <= 100)%Z.
Proof.
  intros H.
  destruct (nonempty (strip resume_text)) eqn:Hr;
    [|unfold analyze_resume_vs_jd in H; rewrite Hr in H; discriminate].
  destruct (nonempty (strip job_desc_text)) eqn:Hj;
    [|unfold analyze_resume_vs_jd in H; rewrite Hr, Hj in H; discriminate].
  rewrite (analyze_steps _ _ _ Hr Hj) in H.
  destruct (process_job_description _ _ _ _ _) as [[e|report] w1];
    [discriminate|].
  destruct (query_job_description _ _ _ _ _ _) as [[e|[|c cs]] w2];
    [discriminate | injection H as <- _; cbn; lia |].
  destruct (generate_analysis _ _ _ _) as [[e|text] w3]; [discriminate|].
  injection H as <- _. cbn. apply match_score_in_range.
Qed.

(** X3. When chunks were retrieved and the call of the generative model
    fails, the analysis still returns: with the canned text, its score 78
    and the retrieved chunk texts, after one recorded call of the model and
    one line about the error on the standard output. *)
Theorem analysis_with_failing_model
    resume_text job_desc_text report w w1 w2 chunk chunks msg :
  process_job_description U svc job_desc_text default_collection w
    = (inr report, w1) ->
  query_job_description U svc resume_text default_collection 5
    (snd (print report w1)) = (inr (chunk :: chunks), w2) ->
  chain_invoke svc (join NL (List.map page_content (chunk :: chunks))) resume_text
    = Raised msg ->
  analyze_resume_vs_jd U svc resume_text job_desc_text w
  = (inr {| score := 78;
            analysis := join NL fallback_analysis_lines;
            relevant_chunks := List.map page_content (chunk :: chunks) |},
     {| chroma_db := chroma_db w2;
        stdout := stdout w2 ++ [py "Google API Error: " ++ msg];
        llm_calls :=
          llm_calls w2
          ++ [(join NL (List.map page_content (chunk :: chunks)), resume_text)] |}).
Proof.
  intros Hp Hq Hfail.
  rewrite analyze_steps;
    [| exact (query_accepts _ _ _ _ _ _ Hq) | exact (process_accepts _ _ _ _ _ Hp)].
  rewrite Hp, Hq, generate_analysis_run, Hfail.
  now rewrite fallback_score.
Qed.

(** X4. A failure of the vector store while the job description is written
    ends the analysis with that error: nothing is printed, nothing is
    queried, the generative model is not called. *)
Theorem store_failure_propagates resume_text job_desc_text w msg db' :
  strip resume_text <> [] ->
  strip job_desc_text <> [] ->
  Chroma_from_documents svc
    (split_documents svc
       {| page_content := clean_text U job_desc_text;
          metadata := [(py "source", py "job_description");
                       (py "type", py "requirements")] |})
    default_collection (chroma_db w) = (Raised msg, db') ->
  analyze_resume_vs_jd U svc resume_text job_desc_text w
  = (inl (ServiceError msg), with_store w db').
Proof.
  intros Hr Hj Hfail.
  apply nonempty_true in Hr. apply nonempty_true in Hj.
  rewrite (analyze_steps _ _ _ Hr Hj).
  unfold process_job_description. rewrite Hj. cbn [negb].
  unfold bind, store_chunks. now rewrite Hfail.
Qed.

(** X5. Only the constructor of the store is guarded in the query: once the
    collection is open, a failure of the similarity search is raised to the
    caller. *)
Theorem search_failure_propagates resume_text collection_name k w db' msg :
  strip resume_text <> [] ->
  Chroma_open svc (chroma_db w) collection_name = (Returned tt, db') ->
  similarity_search svc db' collection_name (clean_text U resume_text) k
    = Raised msg ->
  query_job_description U svc resume_text collection_name k w
  = (inl (ServiceError msg), with_store w db').
Proof.
  intros Hr Hopen Hfail. apply nonempty_true in Hr.
  unfold query_job_description. rewrite Hr. cbn [negb].
  unfold bind, try_except, open_collection, search_collection, ret.
  rewrite Hopen. cbn. now rewrite Hfail.
Qed.

(** X6. Generating an analysis never raises and calls the model exactly
    once, with the chunk texts joined by newlines and the resume as it was
    given; the store is left alone. *)
Theorem generate_analysis_never_raises resume_text chunks w :
  exists text,
    fst (generate_analysis svc resume_text chunks w) = inr text
    /\ llm_calls (snd (generate_analysis svc resume_text chunks w))
       = llm_calls w ++ [(join NL (List.map page_content chunks), resume_text)]
    /\ chroma_db (snd (generate_analysis svc resume_text chunks w))
       = chroma_db w.
Proof.
  rewrite generate_analysis_run.
  destruct (chain_invoke svc _ resume_text); cbn; eauto.
Qed.

(** X7. One analysis makes at most one call to the generative model, and
    that call carries the resume text as it was given, not the cleaned
    one. *)
Theorem analysis_calls_model_at_most_once resume_text job_desc_text w :
  llm_calls (snd (analyze_resume_vs_jd U svc resume_text job_desc_text w))
    = llm_calls w
  \/ exists chunks,
       llm_calls (snd (analyze_resume_vs_jd U svc resume_text job_desc_text w))
       = llm_calls w
         ++ [(join NL (List.map page_content chunks), resume_text)].
Proof.
  destruct (nonempty (strip resume_text)) eqn:Hr;
    [|left; unfold analyze_resume_vs_jd; now rewrite Hr].
  destruct (nonempty (strip job_desc_text)) eqn:Hj;
    [|left; unfold analyze_resume_vs_jd; now rewrite Hr, Hj].
  rewrite (analyze_steps _ _ _ Hr Hj).
  destruct (process_job_description _ _ _ _ _) as [[e|report] w1] eqn:Hp;
    apply process_job_description_outcome in Hp as [Hp _];
    [left; exact Hp|].
  destruct (query_job_description _ _ _ _ _ _) as [[e|[|c cs]] w2] eqn:Hq;
    apply query_job_description_outcome in Hq as [Hq _];
    cbn in Hq; rewrite Hp in Hq; try (left; exact Hq).
  right. exists (c :: cs). rewrite generate_analysis_run.
  destruct (chain_invoke svc _ resume_text); cbn; now rewrite Hq.
Qed.

End PipelineSteps.

(** X2 on a run whose model answers with a score above the range. *)
Lemma analysis_score_in_range_witness :
  exists result,
    fst (analyze_resume_vs_jd ascii_only
           (scripted_services true true (Returned [sample_chunk])
              (Returned (py "Match: 142%")))
           sample_resume sample_job_description fresh_world) = inr result
    /\ (0 <= score result <= 100)%Z.
Proof.
  set (r := analyze_resume_vs_jd ascii_only
              (scripted_services true true (Returned [sample_chunk])
                 (Returned (py "Match: 142%")))
              sample_resume sample_job_description fresh_world).
  assert (E : r = (inr {| score := 100; analysis := py "Match: 142%";
                          relevant_chunks := [page_content sample_chunk] |},
                   snd r)) by reflexivity.
  eexists. split; [rewrite E; reflexivity|].
  exact (analysis_score_in_range ascii_only _ _ _ _ _ _ E).
Defined.

(** X3 on a run whose model fails with a quota error. *)
Lemma analysis_with_failing_model_witness :
  fst (analyze_resume_vs_jd ascii_only
         (scripted_services true true (Returned [sample_chunk])
            (Raised (py "429 quota exceeded")))
         sample_resume sample_job_description fresh_world)
  = inr {| score := 78;
           analysis := join NL fallback_analysis_lines;
           relevant_chunks := [page_content sample_chunk] |}.
Proof.
  set (svc := scripted_services true true (Returned [sample_chunk])
                (Raised (py "429 quota exceeded"))).
  set (report := py "Processed and stored 1 chunks from job description.").
  set (p := process_job_description ascii_only svc sample_job_description
              default_collection fresh_world).
  assert (Hp : p = (inr report, snd p)) by reflexivity.
  set (q := query_job_description ascii_only svc sample_resume
              default_collection 5 (snd (print report (snd p)))).
  assert (Hq : q = (inr [sample_chunk], snd q)) by reflexivity.
  rewrite (analysis_with_failing_model ascii_only svc sample_resume
             sample_job_description report fresh_world (snd p) (snd q)
             sample_chunk [] (py "429 quota exceeded") Hp Hq eq_refl).
  reflexivity.
Defined.

(** X4 on a run whose embedding service is down. *)
Lemma store_failure_propagates_witness :
  analyze_resume_vs_jd ascii_only
    (scripted_services false true (Returned [sample_chunk])
       (Returned (py "Match: 83%")))
    sample_resume sample_job_description fresh_world
  = (inl (ServiceError (py "embedding service unavailable")),
     with_store fresh_world ∅).
Proof.
  apply (store_failure_propagates ascii_only
           (scripted_services false true (Returned [sample_chunk])
              (Returned (py "Match: 83%")))).
  - vm_compute. discriminate.
  - vm_compute. discriminate.
  - reflexivity.
Defined.

(** X5 on a store that opens and then fails to search. *)
Lemma search_failure_propagates_witness :
  query_job_description ascii_only
    (scripted_services true true (Raised (py "index is corrupt"))
       (Returned (py "Match: 83%")))
    sample_resume default_collection 5 fresh_world
  = (inl (ServiceError (py "index is corrupt")), with_store fresh_world ∅).
Proof.
  apply (search_failure_propagates ascii_only
           (scripted_services true true (Raised (py "index is corrupt"))
              (Returned (py "Match: 83%")))).
  - vm_compute. discriminate.
  - reflexivity.
  - reflexivity.
Defined.

(** ** Suggestions, for every text *)

Section SuggestionFacts.

Variable U : unicode_db.

Lemma append_if_long_kept suggestions text :
  Forall well_kept suggestions ->
  Forall well_kept (append_if_long suggestions (strip text)).
Proof.
  intros H. unfold append_if_long.
  destruct (nonempty (strip text) && (10 <? length (strip text))%nat) eqn:E;
    [|exact H].
  apply andb_true_iff in E as [_ E]. apply Nat.ltb_lt in E.
  apply Forall_app. split; [exact H|].
  constructor; [|constructor]. split; [exact E | apply strip_idempotent].
Qed.

Lemma collect_suggestion_kept suggestions line :
  Forall well_kept suggestions ->
  Forall well_kept (collect_suggestion U suggestions line).
Proof.
  intros H. unfold collect_suggestion. cbv zeta.
  destruct (_ && (_ || _)); [now apply append_if_long_kept|].
  destruct (_ && _); [now apply append_if_long_kept | exact H].
Qed.

Lemma scan_suggestions_kept in_section suggestions lines :
  Forall well_kept suggestions ->
  Forall well_kept (scan_suggestions U in_section suggestions lines).
Proof.
  revert in_section suggestions.
  induction lines as [|line lines IH]; intros in_section suggestions H;
    [exact H|].
  cbn [scan_suggestions].
  destruct (is_suggestions_header U line); [now apply IH|].
  destruct in_section; [|now apply IH].
  destruct (starts_new_section line); [exact H|].
  apply IH. now apply collect_suggestion_kept.
Qed.

(** X8. Whatever the text, at least one suggestion is returned, and every
    suggestion returned is longer than ten characters and has no white
    space at either end. *)
Theorem suggestions_never_empty (analysis : str) :
  (1 <= length (get_improvement_suggestions U analysis))%nat
  /\ Forall well_kept (get_improvement_suggestions U analysis).
Proof.
  unfold get_improvement_suggestions.
  destruct analysis as [|c r].
  - split; [cbn; lia|]. repeat constructor.
  - pose proof (scan_suggestions_kept false [] (split NL (c :: r))
                  (List.Forall_nil _)) as H.
    destruct (scan_suggestions U false [] (split NL (c :: r))).
    + split; [cbn; lia|]. repeat constructor; cbn; lia.
    + split; [cbn; lia | exact H].
Qed.

Lemma scan_suggestions_skip suggestions pre rest :
  Forall (fun line => is_suggestions_header U line = false) pre ->
  scan_suggestions U false suggestions (pre ++ rest)
  = scan_suggestions U false suggestions rest.
Proof.
  induction 1 as [|line pre Hl Hpre IH]; [reflexivity|].
  cbn [app scan_suggestions]. now rewrite Hl.
Qed.


(** X9. A text none of whose lines holds [recommendations:] or
    [suggestions:] gets the generic suggestions (the empty text gets the
    message of the guard), whatever lists it contains. *)
Theorem suggestions_need_a_header (analysis : str) :
  Forall (fun line => is_suggestions_header U line = false) (split NL analysis) ->
  get_improvement_suggestions U analysis
  = if nonempty analysis then generic_suggestions else no_analysis_message.
Proof.
  intros H. destruct analysis as [|c r]; [reflexivity|].
  unfold get_improvement_suggestions.
  rewrite <- (app_nil_r (split NL (c :: r))).
  rewrite scan_suggestions_skip by exact H. reflexivity.
Qed.


End SuggestionFacts.

(** X9 on a text with a list and no header of the suggestions section. *)
Lemma suggestions_need_a_header_witness :
  get_improvement_suggestions ascii_only
    (join NL [ py "2. STRENGTHS:";
               py "- Strong programming skills in Python" ])
  = generic_suggestions.
Proof.
  apply (suggestions_need_a_header ascii_only
           (join NL [ py "2. STRENGTHS:";
                      py "- Strong programming skills in Python" ])).
  repeat (constructor; [reflexivity|]). constructor.
Defined.


(** ** Suggestions and list items *)

Section SuggestionItems.

Variable U : unicode_db.





End SuggestionItems.


(** ** Sections, for every text *)

Section SectionFacts.

Variable U : unicode_db.
Variable section_name : str.

Lemma sentinel_length (prefix : str) :
  prefix <> [] -> (1 <= length (prefix ++ section_name))%nat.
Proof.
  intros H. destruct prefix; [contradiction|]. cbn. lia.
Qed.

(** X11. Whatever the text and the section name, the extraction returns a
    text that is not empty. *)
Theorem extract_section_never_empty (text : str) :
  (1 <= length (extract_section U text section_name))%nat.
Proof.
  unfold extract_section. destruct text as [|c r].
  - apply sentinel_length. discriminate.
  - cbv zeta. destruct (strip (join NL _)).
    + apply sentinel_length. discriminate.
    + cbn. lia.
Qed.

(** What the loop keeps is made of lines of the text, in their order, none
    of them blank and none naming the section. *)
Lemma collect_section_sublist in_section section_lines lines :
  exists kept,
    collect_section U section_name in_section section_lines lines
    = section_lines ++ kept
    /\ sublist kept lines
    /\ Forall (fun line => nonempty (strip line) = true
                           /\ names_section U section_name line = false) kept.
Proof.
  revert in_section section_lines.
  induction lines as [|line lines IH]; intros in_section section_lines.
  - exists []. cbn. rewrite app_nil_r. repeat split; constructor.
  - cbn [collect_section].
    destruct (names_section U section_name line) eqn:Hn.
    { destruct (IH true section_lines) as (kept & -> & Hsub & Hall).
      exists kept. repeat split; [now apply sublist_cons | exact Hall]. }
    destruct in_section.
    2:{ destruct (IH false section_lines) as (kept & -> & Hsub & Hall).
        exists kept. repeat split; [now apply sublist_cons | exact Hall]. }
    destruct (starts_new_section line).
    { exists []. rewrite app_nil_r. repeat split; [|constructor].
      apply sublist_nil_l. }
    destruct (nonempty (strip line)) eqn:Hb.
    + destruct (IH true (section_lines ++ [line])) as (kept & -> & Hsub & Hall).
      exists (line :: kept). rewrite <- app_assoc.
      repeat split; [now apply sublist_skip | constructor; auto].
    + destruct (IH true section_lines) as (kept & -> & Hsub & Hall).
      exists kept. repeat split; [now apply sublist_cons | exact Hall].
Qed.

(** X12. The content extracted from a text is made of lines of that text,
    in their order, joined again and stripped; no such line is blank, and
    none is a line that names the section. *)
Theorem extract_section_keeps_lines (text : str) :
  exists kept,
    sublist kept (split NL text)
    /\ Forall (fun line => nonempty (strip line) = true
                           /\ names_section U section_name line = false) kept
    /\ extract_section U text section_name
       = if nonempty text
         then match strip (join NL kept) with
              | [] => py "No specific content found for " ++ section_name
              | result => result
              end
         else py "No content available for " ++ section_name.
Proof.
  destruct (collect_section_sublist false [] (split NL text))
    as (kept & Hc & Hsub & Hall).
  exists kept. repeat split; [exact Hsub | exact Hall |].
  unfold extract_section. destruct text as [|c r]; [reflexivity|].
  cbv zeta. rewrite Hc. reflexivity.
Qed.

(** X13. When no line of the text names the section, the extraction returns
    its message, with the section name as it was asked for. *)
Theorem extract_section_without_header (text : str) :
  Forall (not_named U section_name) (split NL text) ->
  extract_section U text section_name
  = (if nonempty text then py "No specific content found for "
     else py "No content available for ") ++ section_name.
Proof.
  intros H. unfold extract_section. destruct text as [|c r]; [reflexivity|].
  cbv zeta. rewrite <- (app_nil_r (split NL (c :: r))).
  rewrite collect_section_skip by exact H. reflexivity.
Qed.


End SectionFacts.

(** X13 on a text without a STRENGTHS line. *)
Lemma extract_section_without_header_witness :
  extract_section ascii_only
    (join NL [ py "1. OVERALL MATCH: 70%"; py "- solid profile" ])
    (py "STRENGTHS")
  = py "No specific content found for STRENGTHS".
Proof.
  apply (extract_section_without_header ascii_only (py "STRENGTHS")
           (join NL [ py "1. OVERALL MATCH: 70%"; py "- solid profile" ])).
  repeat (constructor; [reflexivity|]). constructor.
Defined.


(** ** Normalized texts *)

Lemma head_space_app a b : a <> [] -> head_space (a ++ b) = head_space a.
Proof. destruct a; [contradiction | reflexivity]. Qed.

Lemma rstrip_last s : head_space (rev (rstrip s)) = false.
Proof.
  induction s as [|c r IH]; [reflexivity|].
  rewrite rstrip_cons. destruct (rstrip r) as [|d r'] eqn:E.
  - destruct (isspace c) eqn:Ec; [reflexivity | exact Ec].
  - change (rev (c :: d :: r')) with (rev (d :: r') ++ [c]).
    rewrite head_space_app; [exact IH|].
    cbn. intros H. apply app_eq_nil in H as [_ H]. discriminate.
Qed.

Lemma single_spaced_no_double s :
  single_spaced s -> contains [SPACE; SPACE] s = false.
Proof.
  induction s as [|a r IH]; intros H; [reflexivity|].
  destruct H as [Hab Hr]. cbn [contains]. rewrite (IH Hr), orb_false_r.
  destruct r as [|b r']; cbn; [now rewrite andb_false_r|].
  destruct (N.eqb_spec a SPACE) as [->|]; [|reflexivity].
  destruct (N.eqb_spec b SPACE) as [->|]; [|reflexivity].
  exfalso. apply Hab. split; reflexivity.
Qed.

Lemma lstrip_length s : (length (lstrip s) <= length s)%nat.
Proof.
  induction s as [|c r IH]; cbn; [lia|]. destruct (isspace c); cbn; lia.
Qed.

Lemma rstrip_length s : (length (rstrip s) <= length s)%nat.
Proof.
  induction s as [|c r IH]; [cbn; lia|].
  rewrite rstrip_cons. destruct (rstrip r) as [|d r'].
  - destruct (isspace c); cbn; lia.
  - cbn [length] in *. lia.
Qed.

Lemma sub_runs_from_length p b s :
  (length (sub_runs_from p b s) <= length s)%nat.
Proof.
  revert b. induction s as [|c r IH]; intros b; cbn; [lia|].
  pose proof (IH true). pose proof (IH false).
  destruct (p c); [destruct b|]; cbn; lia.
Qed.

Lemma lstrip_blank s : Forall (fun c => isspace c = true) s -> lstrip s = [].
Proof. induction 1 as [|c r Hc Hr IH]; cbn; [reflexivity | now rewrite Hc]. Qed.

Lemma strip_solid s :
  Forall (fun c => isspace c = false) s -> strip s = s.
Proof.
  intros H. unfold strip.
  rewrite lstrip_fixed by (destruct H; [reflexivity | assumption]).
  induction H as [|c r Hc Hr IH]; [reflexivity|].
  rewrite rstrip_cons, IH. destruct r; [now rewrite Hc | reflexivity].
Qed.

Section NormalizedTexts.

Variable U : unicode_db.

Lemma kept_space_char c : isspace c = true -> kept_char U c = true.
Proof.
  intros H. unfold kept_char. rewrite H. now rewrite orb_true_r.
Qed.

(** X15. What [clean_text] returns is made of word characters, blanks and
    the punctuation it keeps; its only white space is the blank, never two
    in a row, and none stands at its start or at its end. *)
Theorem clean_text_shape (x : str) :
  Forall (fun c => kept_char U c = true) (clean_text U x)
  /\ Forall (fun c => isspace c = true -> c = SPACE) (clean_text U x)
  /\ contains [SPACE; SPACE] (clean_text U x) = false
  /\ head_space (clean_text U x) = false
  /\ head_space (rev (clean_text U x)) = false.
Proof.
  destruct (clean_text_normal_form U x) as (Hk & Hs & Hss & Ht).
  repeat split; try assumption.
  - now apply single_spaced_no_double.
  - rewrite <- Ht. apply strip_head.
  - rewrite <- Ht. apply rstrip_last.
Qed.

(** X16. Cleaning never makes a text longer. *)
Theorem clean_text_never_longer (x : str) :
  (length (clean_text U x) <= length x)%nat.
Proof.
  destruct x as [|c r]; [cbn; lia|].
  unfold clean_text, strip, sub_runs. cbv zeta.
  pose proof (sub_runs_from_length isspace false (c :: r)) as H1.
  pose proof (List.filter_length_le (kept_char U)
                (sub_runs_from isspace false (c :: r))) as H2.
  pose proof (sub_runs_from_length is_blank false
                (List.filter (kept_char U)
                   (sub_runs_from isspace false (c :: r)))) as H3.
  pose proof (lstrip_length
                (sub_runs_from is_blank false
                   (List.filter (kept_char U)
                      (sub_runs_from isspace false (c :: r))))) as H4.
  pose proof (rstrip_length
                (lstrip
                   (sub_runs_from is_blank false
                      (List.filter (kept_char U)
                         (sub_runs_from isspace false (c :: r)))))) as H5.
  lia.
Qed.

Lemma sub_runs_blank_only b s :
  Forall (fun c => isspace c = true \/ kept_char U c = false) s ->
  Forall (fun c => c = SPACE \/ kept_char U c = false)
    (sub_runs_from isspace b s).
Proof.
  intros H. revert b.
  induction H as [|c r Hc Hr IH]; intros b; cbn; [constructor|].
  destruct (isspace c) eqn:E.
  - destruct b; [apply IH | constructor; [now left | apply IH]].
  - constructor; [|apply IH]. destruct Hc as [Hc|Hc]; [congruence | now right].
Qed.

Lemma filter_blank_only s :
  Forall (fun c => c = SPACE \/ kept_char U c = false) s ->
  Forall (fun c => c = SPACE) (List.filter (kept_char U) s).
Proof.
  induction 1 as [|c r Hc Hr IH]; cbn; [constructor|].
  destruct (kept_char U c) eqn:E; [|exact IH].
  constructor; [|exact IH]. destruct Hc as [Hc|Hc]; [exact Hc | congruence].
Qed.

(** A text of white space and of characters that are not kept cleans to the
    empty text. *)
Lemma clean_text_of_nothing x :
  Forall (fun c => isspace c = true \/ kept_char U c = false) x ->
  clean_text U x = [].
Proof.
  intros H. destruct x as [|c r]; [reflexivity|].
  unfold clean_text, strip, sub_runs. cbv zeta.
  rewrite lstrip_blank; [reflexivity|].
  eapply Forall_impl.
  - apply (sub_runs_from_Forall (fun c => c = SPACE)); [reflexivity|].
    apply filter_blank_only, sub_runs_blank_only, H.
  - intros a ->. reflexivity.
Qed.

Section Pdf.

Variable load_pdf : str -> outcome (list Document).

(** X17. The text extracted from a PDF is already normalized: cleaning it
    again, as the pipeline does with every resume and job description,
    changes nothing. *)
Theorem extracted_text_is_normalized (file_path text : str) :
  extract_text_from_pdf U load_pdf file_path = inr text ->
  clean_text U text = text.
Proof.
  unfold extract_text_from_pdf.
  destruct (load_pdf file_path) as [pages|msg]; [|discriminate].
  cbv zeta. intros [= <-].
  apply clean_text_fixed, clean_text_normal_form.
Qed.

Lemma join_of_nothing (pages : list str) :
  Forall (Forall (fun c => isspace c = true \/ kept_char U c = false)) pages ->
  Forall (fun c => isspace c = true \/ kept_char U c = false) (join NL pages).
Proof.
  induction 1 as [|l ls Hl Hls IH]; [constructor|].
  destruct ls as [|l' ls]; [exact Hl|].
  change (join NL (l :: l' :: ls)) with (l ++ NL :: join NL (l' :: ls)).
  apply Forall_app. split; [exact Hl|].
  constructor; [now left | exact IH].
Qed.

(** X18. A PDF whose pages hold nothing but white space and characters that
    are not kept is extracted as the empty text, and the analysis rejects
    that text as a missing input, whatever the other input is. *)
Theorem unreadable_pdf_is_rejected
    (svc : services) (file_path : str) (pages : list Document)
    (other : str) (w : world) :
  load_pdf file_path = Returned pages ->
  Forall (fun page =>
            Forall (fun c => isspace c = true \/ kept_char U c = false)
              (page_content page)) pages ->
  extract_text_from_pdf U load_pdf file_path = inr []
  /\ analyze_resume_vs_jd U svc [] other w
     = (inl (ValueError both_required), w)
  /\ analyze_resume_vs_jd U svc other [] w
     = (inl (ValueError both_required), w).
Proof.
  intros Hload Hpages. repeat split.
  - unfold extract_text_from_pdf. rewrite Hload. cbv zeta.
    rewrite clean_text_of_nothing; [reflexivity|].
    apply join_of_nothing. now apply Forall_map.
  - unfold analyze_resume_vs_jd.
    destruct (nonempty (strip other)); reflexivity.
Qed.

End Pdf.

(** X19. A resume made only of characters that are not kept passes the
    validation, for it is not blank; cleaned, it is empty, and the store is
    searched with the empty query. *)
Theorem symbols_only_resume_searches_nothing
    (svc : services) (resume_text collection_name : str) (k : nat)
    (w : world) (db' : store) :
  resume_text <> [] ->
  Forall (fun c => kept_char U c = false) resume_text ->
  Chroma_open svc (chroma_db w) collection_name = (Returned tt, db') ->
  query_job_description U svc resume_text collection_name k w
  = (result_of (similarity_search svc db' collection_name [] k),
     with_store w db').
Proof.
  intros Hne Hsym Hopen.
  assert (Hstrip : strip resume_text = resume_text).
  { apply strip_solid. eapply Forall_impl; [exact Hsym|].
    intros c Hc. destruct (isspace c) eqn:E; [|reflexivity].
    cbv beta in Hc. rewrite (kept_space_char c E) in Hc. discriminate. }
  unfold query_job_description. rewrite Hstrip.
  destruct resume_text as [|c r] eqn:Er; [contradiction|].
  cbn [nonempty negb]. rewrite <- Er in *.
  rewrite clean_text_of_nothing
    by (eapply Forall_impl; [exact Hsym | intros a Ha; now right]).
  unfold bind, try_except, open_collection, search_collection, ret.
  rewrite Hopen. reflexivity.
Qed.

End NormalizedTexts.

(** X17 on the two pages of the sample file. *)
Lemma extracted_text_is_normalized_witness :
  extract_text_from_pdf ascii_only sample_loader (py "resume.pdf")
    = inr (py "Jane Doe Python AWS 3 years backend")
  /\ clean_text ascii_only (py "Jane Doe Python AWS 3 years backend")
     = py "Jane Doe Python AWS 3 years backend".
Proof.
  split; [reflexivity|].
  exact (extracted_text_is_normalized ascii_only sample_loader
           (py "resume.pdf") (py "Jane Doe Python AWS 3 years backend")
           eq_refl).
Defined.

(** X18 on a scanned file: two pages, a form feed and some marks. *)
Lemma unreadable_pdf_is_rejected_witness :
  extract_text_from_pdf ascii_only
    (fun _ => Returned [ {| page_content := [12; 32]; metadata := [] |};
                         {| page_content := py " * # "; metadata := [] |} ])
    (py "scan.pdf") = inr []
  /\ analyze_resume_vs_jd ascii_only (sample_services 5 (Raised []))
       [] sample_job_description fresh_world
     = (inl (ValueError both_required), fresh_world)
  /\ analyze_resume_vs_jd ascii_only (sample_services 5 (Raised []))
       sample_job_description [] fresh_world
     = (inl (ValueError both_required), fresh_world).
Proof.
  apply (unreadable_pdf_is_rejected ascii_only
           (fun _ => Returned [ {| page_content := [12; 32]; metadata := [] |};
                                {| page_content := py " * # "; metadata := [] |} ])
           (sample_services 5 (Raised [])) (py "scan.pdf")
           [ {| page_content := [12; 32]; metadata := [] |};
             {| page_content := py " * # "; metadata := [] |} ]
           sample_job_description fresh_world eq_refl).
  repeat constructor; vm_compute; tauto.
Defined.

(** X19 on a resume of three asterisks. *)
Lemma symbols_only_resume_witness :
  query_job_description ascii_only
    (scripted_services true true (Returned []) (Raised []))
    (py "***") default_collection 5 fresh_world
  = (inr [], with_store fresh_world ∅).
Proof.
  apply (symbols_only_resume_searches_nothing ascii_only
           (scripted_services true true (Returned []) (Raised []))
           (py "***") default_collection 5 fresh_world ∅).
  - discriminate.
  - repeat constructor.
  - reflexivity.
Defined.

(** ** Cleaning up temporary files *)

Lemma cleanup_loop_success file_path unlink_fails k :
  forall attempt todo,
    (k < todo)%nat -> (attempt + k < max_retries)%nat ->
    (forall n, (n < k)%nat -> unlink_fails (attempt + n)%nat = true) ->
    unlink_fails (attempt + k)%nat = false ->
    cleanup_loop file_path unlink_fails attempt todo
    = failed_rounds file_path k ++ [Unlink file_path].
Proof.
  induction k as [|k IH]; intros attempt todo Htodo Hmax Hfail Hok;
    (destruct todo as [|todo]; [lia|]); cbn [cleanup_loop failed_rounds app].
  - rewrite Nat.add_0_r in Hok. now rewrite Hok.
  - pose proof (Hfail 0%nat ltac:(lia)) as H0. rewrite Nat.add_0_r in H0.
    rewrite H0.
    replace (attempt <? max_retries - 1)%nat with true
      by (symmetry; apply Nat.ltb_lt; unfold max_retries in *; lia).
    do 2 f_equal. apply IH; try lia.
    + intros n Hn. replace (S attempt + n)%nat with (attempt + S n)%nat by lia.
      apply Hfail. lia.
    + now replace (S attempt + k)%nat with (attempt + S k)%nat by lia.
Qed.

(** X20. A cleanup calls [os.unlink] at most five times, sleeps at most
    four times and prints at most one line, however the calls end. *)
Theorem cleanup_is_bounded (file_path : option str)
    (path_exists : str -> bool) (unlink_fails : nat -> bool) :
  (count_actions is_unlink
     (safe_file_cleanup file_path path_exists unlink_fails) <= 5)%nat
  /\ (count_actions is_sleep
        (safe_file_cleanup file_path path_exists unlink_fails) <= 4)%nat
  /\ (count_actions is_print
        (safe_file_cleanup file_path path_exists unlink_fails) <= 1)%nat.
Proof.
  unfold safe_file_cleanup, count_actions.
  destruct file_path as [path|]; [|cbn; lia].
  destruct (nonempty path && path_exists path); [|cbn; lia].
  cbn [cleanup_loop max_retries].
  destruct (unlink_fails 0%nat), (unlink_fails 1%nat), (unlink_fails 2%nat),
    (unlink_fails 3%nat), (unlink_fails 4%nat); cbn; lia.
Qed.

(** X21. The warning about a file that could not be deleted is printed
    exactly when the path is a non-empty string of an existing file and all
    five calls of [os.unlink] fail. *)
Theorem cleanup_warns_after_five_failures (file_path : option str)
    (path_exists : str -> bool) (unlink_fails : nat -> bool) :
  count_actions is_print (safe_file_cleanup file_path path_exists unlink_fails)
    = 1%nat
  <-> exists path,
        file_path = Some path
        /\ nonempty path = true /\ path_exists path = true
        /\ forall n, (n < 5)%nat -> unlink_fails n = true.
Proof.
  unfold safe_file_cleanup, count_actions.
  destruct file_path as [path|];
    [|split; [cbn; discriminate | intros (p & Hp & _); discriminate]].
  destruct (nonempty path) eqn:Hne;
    [|split; [cbn; discriminate
             | intros (p & [= <-] & Hp & _); congruence]].
  destruct (path_exists path) eqn:Hex;
    [|split; [cbn; discriminate
             | intros (p & [= <-] & _ & Hp & _); congruence]].
  cbn [andb cleanup_loop max_retries].
  destruct (unlink_fails 0%nat) eqn:E0, (unlink_fails 1%nat) eqn:E1,
    (unlink_fails 2%nat) eqn:E2, (unlink_fails 3%nat) eqn:E3,
    (unlink_fails 4%nat) eqn:E4;
    (split;
     [ cbn; intros H; try discriminate;
       exists path; repeat split; try assumption;
       intros n Hn; destruct n as [|[|[|[|[|n]]]]]; (assumption || lia)
     | intros (p & _ & _ & _ & Hall);
       pose proof (Hall 0%nat ltac:(lia)); pose proof (Hall 1%nat ltac:(lia));
       pose proof (Hall 2%nat ltac:(lia)); pose proof (Hall 3%nat ltac:(lia));
       pose proof (Hall 4%nat ltac:(lia)); (reflexivity || congruence) ]).
Qed.

(** X22. When the file exists and the call of [os.unlink] succeeds after
    [k] failures, with [k] below five, the cleanup is [k] rounds of a failed
    call and a sleep, then the successful call, and nothing more: no
    further call, no warning. *)
Theorem cleanup_stops_at_first_success (path : str)
    (path_exists : str -> bool) (unlink_fails : nat -> bool) (k : nat) :
  nonempty path = true ->
  path_exists path = true ->
  (k < 5)%nat ->
  (forall n, (n < k)%nat -> unlink_fails n = true) ->
  unlink_fails k = false ->
  safe_file_cleanup (Some path) path_exists unlink_fails
  = failed_rounds path k ++ [Unlink path].
Proof.
  intros Hne Hex Hk Hfail Hok.
  unfold safe_file_cleanup. rewrite Hne, Hex. cbn [andb].
  apply cleanup_loop_success; unfold max_retries; try lia; assumption.
Qed.

(** X22 on a file that is released after two failed attempts. *)
Lemma cleanup_stops_witness :
  safe_file_cleanup (Some (py "/tmp/tmp1.pdf")) (fun _ => true)
    (fun n => (n <? 2)%nat)
  = [ Unlink (py "/tmp/tmp1.pdf"); Sleep;
      Unlink (py "/tmp/tmp1.pdf"); Sleep;
      Unlink (py "/tmp/tmp1.pdf") ].
Proof.
  apply (cleanup_stops_at_first_success (py "/tmp/tmp1.pdf") (fun _ => true)
           (fun n => (n <? 2)%nat) 2).
  - reflexivity.
  - reflexivity.
  - lia.
  - intros n Hn. apply Nat.ltb_lt. exact Hn.
  - reflexivity.
Defined.
